(** * temporalite: start-command validation and option composition

    A shallow embedding of [cmd/temporalite/main.go]: the [Before] hook of
    the [start] command (flag validation), [searchAttributesValid],
    [parseSearchAttributes], the [Action] hook (option composition, server
    construction and start) and the exit-status mapping of [main]. *)

From Stdlib Require Import ZArith Ascii String Sorted.
From stdpp Require Import base option list strings gmap.

Local Open Scope Z_scope.
Local Open Scope string_scope.

(** ** Strings and formatting *)

(** The double-quote character (code 34). *)
Definition dquote : ascii := ascii_of_nat 34.

Definition str1 (a : ascii) : string := String a EmptyString.

Definition hexDigit (n : N) : ascii :=
  match String.get (N.to_nat n) "0123456789abcdef" with
  | Some a => a
  | None => "0"%char
  end.

(** The bytes that [%q] copies as they are within ASCII: printable, and
    neither the quote nor the backslash. *)
Definition plainByte (b : ascii) : bool :=
  let n := N_of_ascii b in
  ((32 <=? n) && (n <? 127) && negb (n =? 34) && negb (n =? 92))%N.

Fixpoint plain (s : string) : bool :=
  match s with
  | EmptyString => true
  | String b s' => plainByte b && plain s'
  end.

(** [strings.HasPrefix] and [strings.Contains], used to say that a message
    names a flag or cites a value. *)
Fixpoint hasPrefix (s p : string) {struct p} : bool :=
  match p, s with
  | EmptyString, _ => true
  | String a p', String b s' => if Ascii.eqb a b then hasPrefix s' p' else false
  | String _ _, EmptyString => false
  end.

Fixpoint contains (s sub : string) : bool :=
  hasPrefix s sub ||
  match s with
  | EmptyString => false
  | String _ s' => contains s' sub
  end.

(** ** Errors *)

(** A Go [error] value as this program produces them: either an
    [cli.ExitCoder] made by [cli.Exit(message, exitCode)], or a plain error
    ([fmt.Errorf], or an error handed back by zap or by the server). *)
Inductive error : Type :=
| ExitCoder (message : string) (exitCode : Z)
| errorString (message : string).

Definition Error (e : error) : string :=
  match e with
  | ExitCoder m _ => m
  | errorString m => m
  end.

(** ** The command-line context *)

Definition searchAttrType : string := "search-attributes-type".
Definition searchAttrKey : string := "search-attributes-key".
Definition ephemeralFlag : string := "ephemeral".
Definition dbPathFlag : string := "filename".
Definition portFlag : string := "port".
Definition logFormatFlag : string := "log-format".
Definition namespaceFlag : string := "namespace".

Module cli.

Definition Exit (message : string) (exitCode : Z) : error :=
  ExitCoder message exitCode.

(** [*cli.Context] as the hooks of the [start] command see it: the
    positional arguments, whether a flag was given explicitly, and the
    resolved value of a flag by type (the flag's default when it was not
    given). *)
Record Context : Type := {
  Args : list string;
  IsSet : string -> bool;
  Bool : string -> bool;
  Int : string -> Z;
  StringSlice : string -> list string;
  String : string -> string
}.

End cli.

(** ** Results of calls *)

(** What a call does: it returns a value, returns a non-nil [error], or
    panics at run time (here: an index out of range). *)
Inductive outcome (A : Type) : Type :=
| Return (a : A)
| Fail (err : error)
| Panic (msg : string).
Arguments Return {A} a.
Arguments Fail {A} err.
Arguments Panic {A} msg.

Definition panics {A : Type} (o : outcome A) : bool :=
  match o with
  | Panic _ => true
  | _ => false
  end.

(** ** Server options *)

Inductive LevelEncoder : Type := CapitalLevelEncoder | CapitalColorLevelEncoder.
Inductive Level : Type := DebugLevel | InfoLevel | WarnLevel | ErrorLevel.
Inductive zap_Option : Type := WithCaller (enabled : bool) | AddStacktrace (lvl : Level).

(** The logger that [lcfg.Build] yields: the development configuration with
    its level encoder, and the build options. *)
Record Logger : Type := NewZapLogger {
  EncodeLevel : LevelEncoder;
  buildOptions : list zap_Option
}.

(** [temporal.InterruptOn(temporal.InterruptCh())]. *)
Inductive UpstreamOption : Type := InterruptOn_InterruptCh.

(** The directives of package [temporalite] that the command uses; a
    search-attribute map sends a name to the [int32] of its
    [enums.IndexedValueType]. *)
Inductive ServerOption : Type :=
| WithFrontendPort (port : Z)
| WithDatabaseFilePath (path : string)
| WithNamespaces (namespaces : list string)
| WithUpstreamOptions (o : UpstreamOption)
| WithPersistenceDisabled
| WithSearchAttributes (sa : gmap string Z)
| WithLogger (logger : Logger).

Definition isWithLogger (o : ServerOption) : bool :=
  match o with WithLogger _ => true | _ => false end.
Definition isWithSearchAttributes (o : ServerOption) : bool :=
  match o with WithSearchAttributes _ => true | _ => false end.
Definition isWithPersistenceDisabled (o : ServerOption) : bool :=
  match o with WithPersistenceDisabled => true | _ => false end.

(** ** Calls seen from outside, and the monad that records them *)

Inductive event : Type :=
| CallParseSearchAttributes (keys types : list string)
| CallBuild
| CallNewServer (opts : list ServerOption)
| CallStart.

Definition isCallParse (e : event) : bool :=
  match e with CallParseSearchAttributes _ _ => true | _ => false end.

(** The place of a call in the life of the command: parsing, logger
    construction, server construction, start. *)
Definition stage (e : event) : nat :=
  match e with
  | CallParseSearchAttributes _ _ => 0
  | CallBuild => 1
  | CallNewServer _ => 2
  | CallStart => 3
  end.

(** A computation: the calls it made, in order, and how it ended. *)
Definition M (A : Type) : Type := list event * outcome A.

Definition ret {A : Type} (a : A) : M A := ([], Return a).
Definition raise {A : Type} (err : error) : M A := ([], Fail err).
Definition call {A : Type} (e : event) (o : outcome A) : M A := ([e], o).
Definition bind {A B : Type} (m : M A) (k : A -> M B) : M B :=
  match m with
  | (tr, Return a) => let '(tr', o) := k a in ((tr ++ tr')%list, o)
  | (tr, Fail err) => (tr, Fail err)
  | (tr, Panic msg) => (tr, Panic msg)
  end.

Declare Scope go_scope.
Delimit Scope go_scope with go.
Notation "x <- m ;; k" := (bind m (fun x => k))
  (at level 90, m at level 89, right associativity) : go_scope.
Notation "m ;;; k" := (bind m (fun _ => k))
  (at level 90, right associativity) : go_scope.

Definition trace {A : Type} (m : M A) : list event := fst m.
Definition result {A : Type} (m : M A) : outcome A := snd m.

(** What the process leaves behind: the lines written to the error stream
    and the exit status. *)
Record exit : Type := { stderr : list string; status : Z }.

(** ** Raw input *)

(** [liteconfig.Config], as far as the flag defaults read it. *)
Record liteconfig_Config : Type := {
  Ephemeral : bool;
  DatabaseFilePath : string
}.

(** A Go [int] of 64 bits, which is what the flag parser makes of the
    value of an [IntFlag]; it refuses a value out of this range. *)
Definition MinInt : Z := - 2 ^ 63.
Definition MaxInt : Z := 2 ^ 63 - 1.
Record GoInt : Type := mkInt {
  intVal : Z;
  intRange : ((MinInt <=? intVal) && (intVal <=? MaxInt))%Z = true
}.

(** What the flag parser hands on from the command line of [start]: the
    positional arguments and, for each flag, its value when it was given. *)
Record RawInput : Type := {
  args : list string;
  ephemeral : option bool;
  filename : option string;
  port : option GoInt;
  logFormat : option string;
  namespace : option (list string);
  searchAttributesKey : option (list string);
  searchAttributesType : option (list string)
}.

Definition given {A : Type} (o : option A) : bool :=
  match o with Some _ => true | None => false end.

(** The context that the flag table of [buildCLI] makes of a raw input: a
    flag is set when it was given, and resolves to its [Value] default
    otherwise. *)
Definition contextOf (defaultCfg : liteconfig_Config) (DefaultFrontendPort : Z)
    (r : RawInput) : cli.Context :=
  {| cli.Args := args r;
     cli.IsSet name :=
       if String.eqb name searchAttrKey then given (searchAttributesKey r)
       else if String.eqb name searchAttrType then given (searchAttributesType r)
       else if String.eqb name ephemeralFlag then given (ephemeral r)
       else if String.eqb name dbPathFlag then given (filename r)
       else if String.eqb name portFlag then given (port r)
       else if String.eqb name logFormatFlag then given (logFormat r)
       else if String.eqb name namespaceFlag then given (namespace r)
       else false;
     cli.Bool name :=
       if String.eqb name ephemeralFlag
       then default (Ephemeral defaultCfg) (ephemeral r)
       else false;
     cli.Int name :=
       if String.eqb name portFlag
       then default DefaultFrontendPort (intVal <$> port r)
       else 0;
     cli.StringSlice name :=
       if String.eqb name searchAttrKey then default [] (searchAttributesKey r)
       else if String.eqb name searchAttrType then default [] (searchAttributesType r)
       else if String.eqb name namespaceFlag then default [] (namespace r)
       else [];
     cli.String name :=
       if String.eqb name dbPathFlag
       then default (DatabaseFilePath defaultCfg) (filename r)
       else if String.eqb name logFormatFlag then default "json" (logFormat r)
       else EmptyString |}.

(** The input of a bare [start]. *)
Definition noFlags : RawInput :=
  {| args := []; ephemeral := None; filename := None; port := None;
     logFormat := None; namespace := None;
     searchAttributesKey := None; searchAttributesType := None |}.

(** Modelled from the spec: the defaults of package [liteconfig], which the
    spec calls the implementation default path and port; the ephemeral flag
    defaults to false. *)
Definition sampleCfg : liteconfig_Config :=
  {| Ephemeral := false; DatabaseFilePath := "temporalite/db/default.db" |}.
Definition samplePort : Z := 7233.

(** A stand-in for the tables of [strconv.IsPrint] above Latin-1, and a
    date and time for the standard logger; the sample inputs are ASCII and
    consult neither the one nor, unless a plain error is printed, the
    other. *)
Definition samplePrintTable (r : N) : bool := true.
Definition sampleTimestamp : string := "2026/10/31 16:22:36 ".

(** Modelled from the spec: the closed set of indexed value types of the
    data model, numbered as the enum numbers them, with the enum's zero
    member. *)
Definition sampleTypes : gmap string Z :=
  <["Unspecified" := 0]> (<["Text" := 1]> (<["Keyword" := 2]> (<["Int" := 3]>
  (<["Double" := 4]> (<["Bool" := 5]> (<["Datetime" := 6]>
  (<["KeywordList" := 7]> ∅))))))).

(** The inputs of the scenarios, and some more. *)

(** [start --ephemeral --port 7777] *)
Definition scenario1 : RawInput :=
  {| args := []; ephemeral := Some true; filename := None; port := Some (mkInt 7777 eq_refl);
     logFormat := None; namespace := None;
     searchAttributesKey := None; searchAttributesType := None |}.

(** [start --ephemeral --filename foo.db] *)
Definition scenario2 : RawInput :=
  {| args := []; ephemeral := Some true; filename := Some "foo.db"; port := None;
     logFormat := None; namespace := None;
     searchAttributesKey := None; searchAttributesType := None |}.

(** [start --search-attributes-key CustomID --search-attributes-type Keyword] *)
Definition scenario3 : RawInput :=
  {| args := []; ephemeral := None; filename := None; port := None;
     logFormat := None; namespace := None;
     searchAttributesKey := Some ["CustomID"];
     searchAttributesType := Some ["Keyword"] |}.

(** [start --search-attributes-key A,B --search-attributes-type Keyword] *)
Definition scenario4 : RawInput :=
  {| args := []; ephemeral := None; filename := None; port := None;
     logFormat := None; namespace := None;
     searchAttributesKey := Some ["A"; "B"];
     searchAttributesType := Some ["Keyword"] |}.

(** [start --log-format xml] *)
Definition scenario5 : RawInput :=
  {| args := []; ephemeral := None; filename := None; port := None;
     logFormat := Some "xml"; namespace := None;
     searchAttributesKey := None; searchAttributesType := None |}.

(** [start extra-arg] *)
Definition scenario6 : RawInput :=
  {| args := ["extra-arg"]; ephemeral := None; filename := None; port := None;
     logFormat := None; namespace := None;
     searchAttributesKey := None; searchAttributesType := None |}.

(** [start --ephemeral --filename foo.db extra-arg] *)
Definition conflictWithArgument : RawInput :=
  {| args := ["extra-arg"]; ephemeral := Some true; filename := Some "foo.db";
     port := None; logFormat := None; namespace := None;
     searchAttributesKey := None; searchAttributesType := None |}.

(** [start --log-format xml extra-arg] *)
Definition badFormatWithArgument : RawInput :=
  {| args := ["extra-arg"]; ephemeral := None; filename := None; port := None;
     logFormat := Some "xml"; namespace := None;
     searchAttributesKey := None; searchAttributesType := None |}.

(** [start --log-format pretty] *)
Definition prettyFormat : RawInput :=
  {| args := []; ephemeral := None; filename := None; port := None;
     logFormat := Some "pretty"; namespace := None;
     searchAttributesKey := None; searchAttributesType := None |}.

(** [start --search-attributes-key CustomID] *)
Definition keyOnly : RawInput :=
  {| args := []; ephemeral := None; filename := None; port := None;
     logFormat := None; namespace := None;
     searchAttributesKey := Some ["CustomID"]; searchAttributesType := None |}.

(** [start --search-attributes-key A,B --search-attributes-type Keyword,NotAType] *)
Definition unknownType : RawInput :=
  {| args := []; ephemeral := None; filename := None; port := None;
     logFormat := None; namespace := None;
     searchAttributesKey := Some ["A"; "B"];
     searchAttributesType := Some ["Keyword"; "NotAType"] |}.

Definition sampleContext (r : RawInput) : cli.Context :=
  contextOf sampleCfg samplePort r.

Section Start.

(** ** Quoting *)

(** [strconv.IsPrint] on the runes above Latin-1, where the standard
    library decides by its tables [isPrint16], [isNotPrint16], [isPrint32]
    and [isNotPrint32]. *)
Variable isPrintTable : N -> bool.

(** [utf8.RuneError], U+FFFD. *)
Definition RuneError : N := 65533.

(** [utf8.DecodeRuneInString]: the first rune of [s] and its width in
    bytes; an encoding that is not well formed (a stray continuation byte, an
    overlong or truncated sequence, a surrogate, a value beyond U+10FFFF)
    gives [RuneError] with width 1. *)
Definition DecodeRuneInString (s : string) : N * nat :=
  match s with
  | EmptyString => (RuneError, 0%nat)
  | String b0 t0 =>
    let s0 := N_of_ascii b0 in
    if (s0 <? 128)%N then (s0, 1%nat)
    else if ((s0 <? 194) || (244 <? s0))%N then (RuneError, 1%nat)
    else
      let sz : nat :=
        if (s0 <? 224)%N then 2%nat else if (s0 <? 240)%N then 3%nat else 4%nat in
      let lo := (if s0 =? 224 then 160 else if s0 =? 240 then 144 else 128)%N in
      let hi := (if s0 =? 237 then 159 else if s0 =? 244 then 143 else 191)%N in
      if (String.length s <? sz)%nat then (RuneError, 1%nat)
      else
        match t0 with
        | EmptyString => (RuneError, 1%nat)
        | String b1 t1 =>
          let s1 := N_of_ascii b1 in
          if ((s1 <? lo) || (hi <? s1))%N then (RuneError, 1%nat)
          else if (sz <=? 2)%nat
          then (N.lor (N.shiftl (N.land s0 31) 6) (N.land s1 63), 2%nat)
          else
            match t1 with
            | EmptyString => (RuneError, 1%nat)
            | String b2 t2 =>
              let s2 := N_of_ascii b2 in
              if ((s2 <? 128) || (191 <? s2))%N then (RuneError, 1%nat)
              else if (sz <=? 3)%nat
              then (N.lor (N.shiftl (N.land s0 15) 12)
                      (N.lor (N.shiftl (N.land s1 63) 6) (N.land s2 63)), 3%nat)
              else
                match t2 with
                | EmptyString => (RuneError, 1%nat)
                | String b3 _ =>
                  let s3 := N_of_ascii b3 in
                  if ((s3 <? 128) || (191 <? s3))%N then (RuneError, 1%nat)
                  else (N.lor (N.shiftl (N.land s0 7) 18)
                          (N.lor (N.shiftl (N.land s1 63) 12)
                             (N.lor (N.shiftl (N.land s2 63) 6) (N.land s3 63))),
                        4%nat)
                end
            end
        end
  end.

(** [utf8.ValidRune]. *)
Definition ValidRune (r : N) : bool :=
  ((r <? 55296) || ((57343 <? r) && (r <=? 1114111)))%N.

(** [utf8.AppendRune]: the UTF-8 encoding of [r]. *)
Definition AppendRune (r : N) : string :=
  let byte (n : N) : ascii := ascii_of_N (N.land n 255) in
  let cont (n : N) : ascii := ascii_of_N (N.lor 128 (N.land n 63)) in
  if (r <=? 127)%N then str1 (byte r)
  else if (r <=? 2047)%N
  then String (byte (N.lor 192 (N.shiftr r 6))) (str1 (cont r))
  else
    let r := if ValidRune r then r else RuneError in
    if (r <=? 65535)%N
    then String (byte (N.lor 224 (N.shiftr r 12)))
           (String (cont (N.shiftr r 6)) (str1 (cont r)))
    else String (byte (N.lor 240 (N.shiftr r 18)))
           (String (cont (N.shiftr r 12))
              (String (cont (N.shiftr r 6)) (str1 (cont r)))).

(** [strconv.IsPrint]: decided in the code for Latin-1, by the tables
    above it. *)
Definition IsPrint (r : N) : bool :=
  if (r <=? 255)%N then
    if ((32 <=? r) && (r <=? 126))%N then true
    else if ((161 <=? r) && (r <=? 255))%N then negb (r =? 173)%N
    else false
  else isPrintTable r.

(** The hexadecimal digits of [r] from bit [4 * n] down, as the loops
    [for s := 12; s >= 0; s -= 4] of [strconv] write them. *)
Fixpoint hexDigits (n : nat) (r : N) : string :=
  match n with
  | O => EmptyString
  | S k => String (hexDigit (N.land (N.shiftr r (4 * N.of_nat k)) 15))
             (hexDigits k r)
  end.

(** [appendEscapedRune] of [strconv], as [Quote] calls it (the quote is the
    double quote, neither ASCII-only nor graphic-only). *)
Definition appendEscapedRune (r : N) : string :=
  if ((r =? 34) || (r =? 92))%N then String "\"%char (str1 (ascii_of_N r))
  else if IsPrint r then AppendRune r
  else if (r =? 7)%N then "\a"
  else if (r =? 8)%N then "\b"
  else if (r =? 12)%N then "\f"
  else if (r =? 10)%N then "\n"
  else if (r =? 13)%N then "\r"
  else if (r =? 9)%N then "\t"
  else if (r =? 11)%N then "\v"
  else if ((r <? 32) || (r =? 127))%N then "\x" +:+ hexDigits 2 r
  else if negb (ValidRune r) then "\u" +:+ hexDigits 4 RuneError
  else if (r <? 65536)%N then "\u" +:+ hexDigits 4 r
  else "\U" +:+ hexDigits 8 r.

(** The loop of [strconv.Quote] over the runes of the string: [skip] is the
    number of bytes of [s] that belong to the rune already written.  A byte
    that starts no well-formed encoding is written as a hexadecimal
    escape. *)
Fixpoint quoteLoop (skip : nat) (s : string) : string :=
  match s with
  | EmptyString => EmptyString
  | String b s' =>
    match skip with
    | S k => quoteLoop k s'
    | O =>
      let '(r, width) :=
        if (N_of_ascii b <? 128)%N then (N_of_ascii b, 1%nat)
        else DecodeRuneInString s in
      (if (width =? 1)%nat && (r =? RuneError)%N
       then "\x" +:+ hexDigits 2 (N_of_ascii b)
       else appendEscapedRune r)
      +:+ quoteLoop (width - 1) s'
    end
  end.

Definition quoteBody (s : string) : string := quoteLoop 0 s.

(** [fmt.Sprintf("%q", s)], which is [strconv.Quote]. *)
Definition quote (s : string) : string :=
  String dquote (quoteBody s +:+ str1 dquote).

(** ** Flag validation *)

Definition searchAttributesValid (c : cli.Context) : option error :=
  if (cli.IsSet c searchAttrType || cli.IsSet c searchAttrKey)
       && negb (cli.IsSet c searchAttrType && cli.IsSet c searchAttrKey)
  then Some (cli.Exit
    ("ERROR: both " +:+ quote searchAttrType +:+ " and " +:+ quote searchAttrKey
       +:+ " must be set at the same time, or omitted completely") 1)
  else if cli.IsSet c searchAttrType && cli.IsSet c searchAttrKey
       && negb (length (cli.StringSlice c searchAttrType)
                  =? length (cli.StringSlice c searchAttrKey))%nat
  then Some (cli.Exit
    ("ERROR: number of search attributes (type/key) in " +:+ quote searchAttrType
       +:+ " and " +:+ quote searchAttrKey +:+ " must be the same") 1)
  else None.

(** The [Before] hook of the [start] command; [None] is Go's [nil]. *)
Definition Before (c : cli.Context) : option error :=
  if (0 <? length (cli.Args c))%nat
  then Some (cli.Exit "ERROR: start command doesn't support arguments." 1)
  else if cli.IsSet c ephemeralFlag && cli.IsSet c dbPathFlag
  then Some (cli.Exit
    ("ERROR: only one of " +:+ quote ephemeralFlag +:+ " or " +:+ quote dbPathFlag
       +:+ " flags may be passed at a time") 1)
  else match searchAttributesValid c with
  | Some err => Some err
  | None =>
    if String.eqb (cli.String c logFormatFlag) "json"
       || String.eqb (cli.String c logFormatFlag) "pretty"
    then None
    else Some (cli.Exit
      ("bad value " +:+ quote (cli.String c logFormatFlag)
         +:+ " passed for flag " +:+ quote logFormatFlag) 1)
  end.

(** ** The validator as the specification words it *)

(** The five rules in their fixed order, each with the test that it is
    violated and the failure it reports. *)
Definition spec_rules : list ((cli.Context -> bool) * (cli.Context -> error)) :=
  [ (fun c => negb (length (cli.Args c) =? 0)%nat,
     fun _ => cli.Exit "ERROR: start command doesn't support arguments." 1);
    (fun c => cli.IsSet c ephemeralFlag && cli.IsSet c dbPathFlag,
     fun _ => cli.Exit
       ("ERROR: only one of " +:+ quote ephemeralFlag +:+ " or "
          +:+ quote dbPathFlag +:+ " flags may be passed at a time") 1);
    (fun c => xorb (cli.IsSet c searchAttrKey) (cli.IsSet c searchAttrType),
     fun _ => cli.Exit
       ("ERROR: both " +:+ quote searchAttrType +:+ " and " +:+ quote searchAttrKey
          +:+ " must be set at the same time, or omitted completely") 1);
    (fun c => cli.IsSet c searchAttrKey && cli.IsSet c searchAttrType
              && negb (length (cli.StringSlice c searchAttrKey)
                         =? length (cli.StringSlice c searchAttrType))%nat,
     fun _ => cli.Exit
       ("ERROR: number of search attributes (type/key) in " +:+ quote searchAttrType
          +:+ " and " +:+ quote searchAttrKey +:+ " must be the same") 1);
    (fun c => negb (bool_decide (cli.String c logFormatFlag ∈ ["json"; "pretty"])),
     fun c => cli.Exit
       ("bad value " +:+ quote (cli.String c logFormatFlag)
          +:+ " passed for flag " +:+ quote logFormatFlag) 1) ].

(** The failure of the earliest violated rule, if any rule is violated. *)
Definition spec_firstViolation (c : cli.Context) : option error :=
  (fun rule => snd rule c) <$> find (fun rule => fst rule c) spec_rules.

(** ** Parsing and composition *)


(** [enums.IndexedValueType_value] of go.temporal.io/api: the names of the
    indexed value types and their numbers. *)
Variable IndexedValueType_value : gmap string Z.

(** The collaborators of the [Action] hook: the text of the error of
    [lcfg.Build], of [temporalite.NewServer] on the given options, and of
    [Start] on the server built from them ([None] is [nil]).  These are
    plain errors: none of them carries an exit code. *)
Variable Build_err : option string.
Variable NewServer_err : list ServerOption -> option string.
Variable Start_err : list ServerOption -> option string.

(** The date and time that the standard logger of package [log] writes in
    front of a message ([2009/11/10 23:00:00] and a space). *)
Variable timestamp : string.

(** The loop of [parseSearchAttributes] from index [i] on, [keys] being
    what is left of the key slice and [searchAttributes] the map so far. *)
Fixpoint parseLoop (i : nat) (keys types : list string)
    (searchAttributes : gmap string Z) : outcome (gmap string Z) :=
  match keys with
  | [] => Return searchAttributes
  | key :: keys' =>
    match types !! i with
    | None => Panic "runtime error: index out of range"
    | Some ty =>
      match IndexedValueType_value !! ty with
      | None => Fail (errorString
          ("the type: " +:+ ty +:+ " is not a valid type for a search attribute"))
      | Some t => parseLoop (S i) keys' types (<[key := t]> searchAttributes)
      end
    end
  end.

Definition parseSearchAttributes (keys types : list string)
    : outcome (gmap string Z) :=
  parseLoop 0 keys types ∅.

(** ** Option composition: the [Action] hook up to the server's construction *)

Definition composeOptions (c : cli.Context) : M (list ServerOption) :=
  (let opts := [ WithFrontendPort (cli.Int c portFlag);
                 WithDatabaseFilePath (cli.String c dbPathFlag);
                 WithNamespaces (cli.StringSlice c namespaceFlag);
                 WithUpstreamOptions InterruptOn_InterruptCh ] in
   let opts := if cli.Bool c ephemeralFlag
               then (opts ++ [WithPersistenceDisabled])%list else opts in
   opts <- (if cli.IsSet c searchAttrType && cli.IsSet c searchAttrKey
            then
              sa <- call (CallParseSearchAttributes
                            (cli.StringSlice c searchAttrKey)
                            (cli.StringSlice c searchAttrType))
                         (parseSearchAttributes
                            (cli.StringSlice c searchAttrKey)
                            (cli.StringSlice c searchAttrType)) ;;
              ret (opts ++ [WithSearchAttributes sa])%list
            else ret opts) ;;
   if String.eqb (cli.String c logFormatFlag) "pretty"
   then
     l <- call CallBuild
            (match Build_err with
             | Some err => Fail (errorString err)
             | None => Return (NewZapLogger CapitalColorLevelEncoder
                                 [WithCaller false; AddStacktrace ErrorLevel])
             end) ;;
     ret (opts ++ [WithLogger l])%list
   else ret opts)%go.

(** The [Action] hook: it always ends with a non-nil error, the last one
    being the exit with status 0 once [Start] has returned. *)
Definition Action (c : cli.Context) : M unit :=
  (opts <- composeOptions c ;;
   call (CallNewServer opts)
     (match NewServer_err opts with
      | Some err => Fail (errorString err)
      | None => Return tt
      end) ;;;
   call CallStart
     (match Start_err opts with
      | Some err => Fail (cli.Exit
          ("Unable to start server. Error: " +:+ err) 1)
      | None => Return tt
      end) ;;;
   raise (cli.Exit "All services are stopped." 0))%go.

(** [Command.Run] of urfave/cli for the [start] command: the [Before]
    hook first, and the [Action] hook only when it returned [nil]. *)
Definition Run (c : cli.Context) : M unit :=
  match Before c with
  | Some err => raise err
  | None => Action c
  end.

(** ** The process *)

(** [main]: an [ExitCoder] is handled inside [App.Run], which prints its
    message and exits with its code; any other error comes back to [main]
    and goes to [log.Fatal], which prints it behind the logger's date and
    time and exits with status 1; a panic prints its message and exits with
    status 2. *)
Definition main (c : cli.Context) : exit :=
  match result (Run c) with
  | Fail (ExitCoder message exitCode) =>
    {| stderr := if String.eqb message EmptyString then [] else [message];
       status := exitCode |}
  | Fail (errorString message) =>
    {| stderr := [timestamp +:+ message]; status := 1 |}
  | Return _ => {| stderr := []; status := 0 |}
  | Panic msg => {| stderr := ["panic: " +:+ msg]; status := 2 |}
  end.

(** The error of the parser on the type token [ty]. *)
Definition invalidType (ty : string) : error :=
  errorString ("the type: " +:+ ty +:+ " is not a valid type for a search attribute").

(** The key [k] occurs in [keys], and its last occurrence stands against a
    type token, [offset] positions further in [types], that the enum sends
    to [v]. *)
Definition lastBinding (offset : nat) (keys types : list string)
    (k : string) (v : Z) : Prop :=
  exists (j : nat) (ty : string),
    keys !! j = Some k /\ types !! (offset + j)%nat = Some ty /\
    IndexedValueType_value !! ty = Some v /\
    forall j' : nat, (j < j')%nat -> keys !! j' <> Some k.

(** ** Properties of the validator *)

Lemma hasPrefix_app (s t : string) : hasPrefix (s +:+ t) s = true.
Proof.
  induction s as [|a s IH]; simpl; [done|].
  by rewrite Ascii.eqb_refl.
Qed.

Lemma contains_here (s sub : string) : hasPrefix s sub = true -> contains s sub = true.
Proof. intros H. destruct s; cbn [contains]; by rewrite H. Qed.

Lemma contains_app_r (pre s sub : string) :
  contains s sub = true -> contains (pre +:+ s) sub = true.
Proof.
  intros H. induction pre as [|a pre IH]; [done|].
  change (String a pre +:+ s) with (String a (pre +:+ s)).
  cbn [contains]. rewrite IH. apply orb_true_r.
Qed.

Lemma hasPrefix_app_l (p s t : string) :
  hasPrefix s p = true -> hasPrefix (s +:+ t) p = true.
Proof.
  revert s. induction p as [|a p IH]; intros [|b s]; simpl; try done.
  destruct (Ascii.eqb a b); [apply IH|done].
Qed.

Lemma contains_app_l (s t sub : string) :
  contains s sub = true -> contains (s +:+ t) sub = true.
Proof.
  induction s as [|a s IH].
  - cbn [contains]. rewrite orb_false_r. intros H.
    apply contains_here. by apply (hasPrefix_app_l sub EmptyString t).
  - change (String a s +:+ t) with (String a (s +:+ t)). cbn [contains].
    intros [H|H]%orb_true_iff.
    + apply (hasPrefix_app_l sub (String a s) t) in H.
      change (String a s +:+ t) with (String a (s +:+ t)) in H.
      by rewrite H.
    + rewrite (IH H). apply orb_true_r.
Qed.

Lemma contains_tail (a : ascii) (s sub : string) :
  contains s sub = true -> contains (String a s) sub = true.
Proof. intros H. cbn [contains]. rewrite H. apply orb_true_r. Qed.

Lemma quoteLoop_plain (b : ascii) (s : string) :
  plainByte b = true -> quoteLoop 0 (String b s) = String b (quoteLoop 0 s).
Proof.
  unfold plainByte. intros H.
  apply andb_true_iff in H as [H H92]. apply andb_true_iff in H as [H H34].
  apply andb_true_iff in H as [H32 H127].
  apply N.leb_le in H32. apply N.ltb_lt in H127.
  apply negb_true_iff in H34, H92.
  cbn [quoteLoop].
  replace (N_of_ascii b <? 128)%N with true by (symmetry; apply N.ltb_lt; lia).
  cbn [Nat.eqb andb Nat.sub].
  replace (N_of_ascii b =? RuneError)%N with false
    by (symmetry; apply N.eqb_neq; unfold RuneError; lia).
  unfold appendEscapedRune, IsPrint, AppendRune.
  rewrite H34, H92. cbn [orb].
  replace (N_of_ascii b <=? 255)%N with true by (symmetry; apply N.leb_le; lia).
  replace (32 <=? N_of_ascii b)%N with true by (symmetry; apply N.leb_le; lia).
  replace (N_of_ascii b <=? 126)%N with true by (symmetry; apply N.leb_le; lia).
  cbn [andb].
  replace (N_of_ascii b <=? 127)%N with true by (symmetry; apply N.leb_le; lia).
  replace (N.land (N_of_ascii b) 255) with (N_of_ascii b).
  - by rewrite ascii_N_embedding.
  - symmetry. change 255%N with (N.ones 8). rewrite N.land_ones.
    apply N.mod_small. change (2 ^ 8)%N with 256%N. lia.
Qed.

Lemma quoteBody_plain (s : string) : plain s = true -> quoteBody s = s.
Proof.
  unfold quoteBody. induction s as [|b s IH]; [done|].
  cbn [plain]. intros [Hb Hs]%andb_true_iff.
  by rewrite (quoteLoop_plain b s Hb), (IH Hs).
Qed.

(** A plain value is in its quoted form as it is. *)
Lemma contains_quote_plain (s : string) :
  plain s = true -> contains (quote s) s = true.
Proof.
  intros H. unfold quote. rewrite (quoteBody_plain s H).
  apply contains_tail, contains_here, hasPrefix_app.
Qed.

Lemma contains_middle (pre sub post : string) :
  contains (pre +:+ sub +:+ post) sub = true.
Proof. apply contains_app_r, contains_here, hasPrefix_app. Qed.

Lemma searchAttributesValid_None (c : cli.Context) :
  searchAttributesValid c = None ->
  cli.IsSet c searchAttrType = cli.IsSet c searchAttrKey /\
  (cli.IsSet c searchAttrKey = true ->
   length (cli.StringSlice c searchAttrKey)
   = length (cli.StringSlice c searchAttrType)).
Proof.
  unfold searchAttributesValid.
  destruct (cli.IsSet c searchAttrType), (cli.IsSet c searchAttrKey); simpl;
    try discriminate; [|by intros _; split].
  destruct (Nat.eqb_spec (length (cli.StringSlice c searchAttrType))
              (length (cli.StringSlice c searchAttrKey))); simpl;
    [by intros _; split | discriminate].
Qed.

Lemma searchAttributesValid_exit (c : cli.Context) (err : error) :
  searchAttributesValid c = Some err ->
  exists msg, err = cli.Exit msg 1 /\ msg <> EmptyString.
Proof.
  unfold searchAttributesValid.
  repeat match goal with |- context [if ?b then _ else _] => destruct b end;
    intros [= <-]; eexists; (split; [reflexivity | discriminate]).
Qed.

Lemma Before_None (c : cli.Context) :
  Before c = None ->
  cli.Args c = [] /\
  cli.IsSet c ephemeralFlag && cli.IsSet c dbPathFlag = false /\
  searchAttributesValid c = None /\
  (cli.String c logFormatFlag = "json" \/ cli.String c logFormatFlag = "pretty").
Proof.
  unfold Before. destruct (cli.Args c) as [|a l]; simpl; [|discriminate].
  destruct (cli.IsSet c ephemeralFlag && cli.IsSet c dbPathFlag); [discriminate|].
  destruct (searchAttributesValid c); [discriminate|].
  destruct (String.eqb_spec (cli.String c logFormatFlag) "json") as [->|_];
    [by auto|].
  destruct (String.eqb_spec (cli.String c logFormatFlag) "pretty") as [->|_];
    [by auto|discriminate].
Qed.

(** Every failure of the validator is an exit with status 1 and a message. *)
Lemma Before_exit (c : cli.Context) (err : error) :
  Before c = Some err ->
  exists msg, err = cli.Exit msg 1 /\ msg <> EmptyString.
Proof.
  unfold Before.
  destruct (0 <? length (cli.Args c))%nat;
    [intros [= <-]; eexists; split; [reflexivity|discriminate]|].
  destruct (cli.IsSet c ephemeralFlag && cli.IsSet c dbPathFlag);
    [intros [= <-]; eexists; split; [reflexivity|discriminate]|].
  destruct (searchAttributesValid c) as [e|] eqn:E.
  - intros [= <-]. by apply searchAttributesValid_exit in E.
  - destruct (_ || _); [discriminate|].
    intros [= <-]; eexists; split; [reflexivity|discriminate].
Qed.

Lemma Run_Before_Some (c : cli.Context) (err : error) :
  Before c = Some err -> Run c = ([], Fail err).
Proof. intros H. unfold Run. by rewrite H. Qed.

(** ** Properties of the composition *)

Ltac compose_cases c :=
  unfold composeOptions, call, ret, bind, trace, result;
  destruct (cli.Bool c ephemeralFlag);
  destruct (cli.IsSet c searchAttrType), (cli.IsSet c searchAttrKey);
  cbn [andb];
  try destruct (parseSearchAttributes (cli.StringSlice c searchAttrKey)
                  (cli.StringSlice c searchAttrType));
  destruct (String.eqb_spec (cli.String c logFormatFlag) "pretty");
  try destruct Build_err;
  cbn [fst snd app].

(** The parser is called from one place, on the two flag values, and only
    when both flags are set. *)
Lemma composeOptions_parse_call (c : cli.Context) (keys types : list string) :
  CallParseSearchAttributes keys types ∈ trace (composeOptions c) ->
  cli.IsSet c searchAttrKey = true /\ cli.IsSet c searchAttrType = true /\
  keys = cli.StringSlice c searchAttrKey /\
  types = cli.StringSlice c searchAttrType.
Proof.
  compose_cases c; intros H;
    repeat match goal with
    | H : _ ∈ [] |- _ => by apply elem_of_nil in H
    | H : _ ∈ _ :: _ |- _ => apply elem_of_cons in H as [H|H]
    end; try discriminate; by injection H as -> ->.
Qed.

(** What the [Action] hook calls after the composition is no parser call. *)
Lemma Action_parse_call (c : cli.Context) (keys types : list string) :
  CallParseSearchAttributes keys types ∈ trace (Action c) ->
  CallParseSearchAttributes keys types ∈ trace (composeOptions c).
Proof.
  unfold Action, trace.
  destruct (composeOptions c) as [tr [opts|err|msg]]; cbn [bind fst]; try done.
  unfold call, raise.
  destruct (NewServer_err opts); cbn [bind fst snd app];
    [|destruct (Start_err opts); cbn [bind fst snd app]];
    rewrite ?app_nil_r, ?elem_of_app;
    (intros [H|H]; [done|]);
    repeat match goal with
    | H : _ ∈ [] |- _ => by apply elem_of_nil in H
    | H : _ ∈ _ :: _ |- _ => apply elem_of_cons in H as [H|H]
    end; discriminate.
Qed.

(** A validated input does not make the composition panic. *)
Lemma composeOptions_no_panic (c : cli.Context) :
  (cli.IsSet c searchAttrKey = true -> cli.IsSet c searchAttrType = true ->
   panics (parseSearchAttributes (cli.StringSlice c searchAttrKey)
             (cli.StringSlice c searchAttrType)) = false) ->
  panics (result (composeOptions c)) = false.
Proof. compose_cases c; simpl; auto. Qed.

(** ** Properties of the parser *)

Lemma parseLoop_no_panic (keys types : list string) :
  forall (i : nat) (m : gmap string Z),
    (i + length keys <= length types)%nat ->
    panics (parseLoop i keys types m) = false.
Proof.
  induction keys as [|key keys IH]; intros i m Hlen; simpl in *; [done|].
  destruct (lookup_lt_is_Some_2 types i) as [ty Hty]; [lia|].
  rewrite Hty. destruct (IndexedValueType_value !! ty); [|done].
  apply IH. lia.
Qed.

Lemma parseLoop_fail (types : list string) (i : nat) (ty : string) :
  types !! i = Some ty ->
  IndexedValueType_value !! ty = None ->
  (forall (j : nat) (ty' : string),
     (j < i)%nat -> types !! j = Some ty' ->
     is_Some (IndexedValueType_value !! ty')) ->
  forall (keys : list string) (n : nat) (m : gmap string Z),
    (n <= i)%nat -> (i < n + length keys)%nat ->
    parseLoop n keys types m = Fail (invalidType ty).
Proof.
  intros Hi Hbad Hfirst.
  induction keys as [|key keys IH]; intros n m Hn Hlt; simpl in *; [lia|].
  destruct (decide (n = i)) as [->|Hne].
  - by rewrite Hi, Hbad.
  - destruct (lookup_lt_is_Some_2 types n) as [ty0 Hty0].
    { apply lookup_lt_Some in Hi. lia. }
    rewrite Hty0.
    destruct (Hfirst n ty0) as [t Ht]; [lia|done|].
    rewrite Ht. apply IH; lia.
Qed.

Lemma parseLoop_ok (types : list string) :
  forall (keys : list string) (i : nat) (m : gmap string Z),
    (i + length keys <= length types)%nat ->
    (forall (j : nat) (ty : string),
       (j < length keys)%nat -> types !! (i + j)%nat = Some ty ->
       is_Some (IndexedValueType_value !! ty)) ->
    exists sa : gmap string Z,
      parseLoop i keys types m = Return sa /\
      forall (k : string) (v : Z),
        sa !! k = Some v <->
        lastBinding i keys types k v \/ ((k ∉ keys) /\ m !! k = Some v).
Proof.
  induction keys as [|key keys IH]; intros i m Hlen Hok; simpl in *.
  - exists m. split; [done|]. intros k v. split.
    + intros H. right. split; [apply not_elem_of_nil|done].
    + intros [(j & ty & Hj & _)|[_ H]]; [by rewrite lookup_nil in Hj|done].
  - destruct (lookup_lt_is_Some_2 types i) as [ty0 Hty0]; [lia|].
    rewrite Hty0.
    destruct (Hok 0%nat ty0) as [t Ht]; [lia|by rewrite Nat.add_0_r|].
    rewrite Ht.
    destruct (IH (S i) (<[key := t]> m)) as (sa & Hsa & Hiff); [lia| |].
    { intros j ty Hj Hty. apply (Hok (S j) ty); [lia|].
      by replace (i + S j)%nat with (S i + j)%nat by lia. }
    exists sa. split; [done|]. intros k v. rewrite Hiff. split.
    + intros [(j & ty & Hj & Hty & Hv & Hlast)|[Hnotin Hm]].
      * left. exists (S j), ty. repeat split; try done.
        { by replace (i + S j)%nat with (S i + j)%nat by lia. }
        intros [|j'] Hlt; [lia|]. apply Hlast. lia.
      * destruct (decide (key = k)) as [->|Hne].
        { rewrite lookup_insert_eq in Hm. injection Hm as <-.
          left. exists 0%nat, ty0. repeat split; try done.
          { by rewrite Nat.add_0_r. }
          intros [|j'] Hlt; [lia|]. simpl. intros Hj'.
          apply Hnotin. by eapply list_elem_of_lookup_2. }
        { rewrite lookup_insert_ne in Hm by done.
          right. split; [|done]. rewrite not_elem_of_cons. by split. }
    + intros [(j & ty & Hj & Hty & Hv & Hlast)|[Hnotin Hm]].
      * destruct j as [|j]; simpl in Hj.
        { injection Hj as ->. rewrite Nat.add_0_r, Hty0 in Hty.
          injection Hty as <-. rewrite Ht in Hv. injection Hv as <-.
          right. split; [|by rewrite lookup_insert_eq].
          intros [j' Hj']%list_elem_of_lookup_1.
          apply (Hlast (S j')); [lia|done]. }
        { left. exists j, ty. repeat split; try done.
          { by replace (S i + j)%nat with (i + S j)%nat by lia. }
          intros j' Hlt. apply (Hlast (S j')). lia. }
      * apply not_elem_of_cons in Hnotin as [Hne Hnotin].
        right. split; [done|]. by rewrite lookup_insert_ne.
Qed.

Lemma logFormat_known (v : string) :
  String.eqb v "json" || String.eqb v "pretty"
  = bool_decide (v ∈ ["json"; "pretty"]).
Proof.
  symmetry.
  destruct (String.eqb_spec v "json") as [->|E1]; [done|].
  destruct (String.eqb_spec v "pretty") as [->|E2]; [done|].
  apply bool_decide_eq_false_2.
  rewrite !elem_of_cons, elem_of_nil. tauto.
Qed.

Lemma parseLoop_Fail (types : list string) (err : error) :
  forall (keys : list string) (i : nat) (m : gmap string Z),
    parseLoop i keys types m = Fail err ->
    exists ty, ty ∈ types /\ IndexedValueType_value !! ty = None /\
      err = invalidType ty.
Proof.
  induction keys as [|key keys IH]; intros i m; simpl; [discriminate|].
  destruct (types !! i) as [ty|] eqn:Hty; [|discriminate].
  destruct (IndexedValueType_value !! ty) eqn:Htbl.
  - apply IH.
  - intros [= <-]. exists ty. split; [by eapply list_elem_of_lookup_2|done].
Qed.

(** A failed composition ends with a plain error, never with an exit code. *)
Lemma composeOptions_Fail (c : cli.Context) (err : error) :
  result (composeOptions c) = Fail err -> exists m, err = errorString m.
Proof.
  unfold composeOptions, call, ret, bind, trace, result;
  destruct (cli.Bool c ephemeralFlag);
  destruct (cli.IsSet c searchAttrType), (cli.IsSet c searchAttrKey);
  cbn [andb];
  try destruct (parseSearchAttributes (cli.StringSlice c searchAttrKey)
                  (cli.StringSlice c searchAttrType)) eqn:E;
  destruct (String.eqb_spec (cli.String c logFormatFlag) "pretty");
  try destruct Build_err;
  cbn [fst snd app]; try discriminate; intros [= <-]; eauto;
  apply parseLoop_Fail in E as (ty & _ & _ & ->); unfold invalidType; eauto.
Qed.

Lemma Before_None_no_panic (c : cli.Context) :
  Before c = None -> panics (result (composeOptions c)) = false.
Proof.
  intros E. apply composeOptions_no_panic. intros Hk _.
  apply Before_None in E as (_ & _ & E & _).
  apply searchAttributesValid_None in E as [_ E].
  apply parseLoop_no_panic. rewrite (E Hk). simpl. lia.
Qed.

Lemma Run_no_panic (c : cli.Context) : panics (result (Run c)) = false.
Proof.
  unfold Run. destruct (Before c) eqn:E; [done|].
  apply Before_None_no_panic in E. unfold Action, result in *.
  destruct (composeOptions c) as [tr [opts|err|msg]]; cbn [bind snd] in *;
    try done.
  unfold call, raise.
  destruct (NewServer_err opts); cbn [bind snd]; [done|].
  destruct (Start_err opts); done.
Qed.

(** The composition returns options unless the parser or the logger
    construction returns an error. *)
Lemma composeOptions_Return (c : cli.Context) :
  (cli.IsSet c searchAttrType && cli.IsSet c searchAttrKey = true ->
   exists sa,
     parseSearchAttributes (cli.StringSlice c searchAttrKey)
       (cli.StringSlice c searchAttrType) = Return sa) ->
  (cli.String c logFormatFlag = "pretty" -> Build_err = None) ->
  exists rest,
    result (composeOptions c)
    = Return ([ WithFrontendPort (cli.Int c portFlag);
                WithDatabaseFilePath (cli.String c dbPathFlag);
                WithNamespaces (cli.StringSlice c namespaceFlag);
                WithUpstreamOptions InterruptOn_InterruptCh ]
              ++ (if cli.Bool c ephemeralFlag
                  then [WithPersistenceDisabled] else [])
              ++ rest)%list /\
    forallb (fun o => isWithSearchAttributes o || isWithLogger o) rest = true.
Proof.
  unfold composeOptions, call, ret, bind, result.
  destruct (cli.IsSet c searchAttrType && cli.IsSet c searchAttrKey);
    [intros H; destruct (H eq_refl) as [sa ->]; clear H|intros _];
    destruct (cli.Bool c ephemeralFlag);
    (destruct (String.eqb_spec (cli.String c logFormatFlag) "pretty") as [E|E];
     intros Hb; [rewrite (Hb E)|]); cbn [fst snd app];
    eexists; (split; [reflexivity|reflexivity]).
Qed.

(** A failed logger construction fails the composition with its error. *)
Lemma composeOptions_Build_Fail (c : cli.Context) (e : string) :
  (cli.IsSet c searchAttrType && cli.IsSet c searchAttrKey = true ->
   exists sa,
     parseSearchAttributes (cli.StringSlice c searchAttrKey)
       (cli.StringSlice c searchAttrType) = Return sa) ->
  cli.String c logFormatFlag = "pretty" ->
  Build_err = Some e ->
  result (composeOptions c) = Fail (errorString e).
Proof.
  intros Hsa Hp He. unfold composeOptions, call, ret, bind, result.
  rewrite Hp, He.
  destruct (cli.IsSet c searchAttrType && cli.IsSet c searchAttrKey);
    [destruct (Hsa eq_refl) as [sa ->]|];
    by destruct (cli.Bool c ephemeralFlag).
Qed.

(** After a passed validation the two search-attribute flags are set
    together. *)
Lemma Before_None_both (c : cli.Context) :
  Before c = None ->
  cli.IsSet c searchAttrType && cli.IsSet c searchAttrKey
  = cli.IsSet c searchAttrKey.
Proof.
  intros E. apply Before_None in E as (_ & _ & E & _).
  apply searchAttributesValid_None in E as [-> _].
  by destruct (cli.IsSet c searchAttrKey).
Qed.

(** ** The claims *)

(** C1, amended.  When both the ephemeral flag and the database-filename
    flag are explicitly set, validation fails with exit status 1 whatever
    the values of the two flags are, and nothing is parsed, built or
    started; when there is no positional argument the message is the one
    that names both flags. *)
Theorem C1_ephemeral_filename_conflict (c : cli.Context) :
  cli.IsSet c ephemeralFlag = true ->
  cli.IsSet c dbPathFlag = true ->
  (exists msg, Before c = Some (cli.Exit msg 1)) /\
  trace (Run c) = [] /\
  (cli.Args c = [] ->
   exists msg, Before c = Some (cli.Exit msg 1) /\
     contains msg ephemeralFlag = true /\ contains msg dbPathFlag = true).
Proof.
  intros He Hd.
  assert (Hfail : exists msg, Before c = Some (cli.Exit msg 1)).
  { unfold Before. rewrite He, Hd.
    destruct (0 <? length (cli.Args c))%nat; eauto. }
  split; [done|]. split.
  - destruct Hfail as [msg Hmsg]. by rewrite (Run_Before_Some _ _ Hmsg).
  - intros Hargs. unfold Before. rewrite Hargs, He, Hd. simpl.
    eexists. split; [reflexivity|]. split; reflexivity.
Qed.

(** C4.  When exactly one of the search-attribute key list and type list
    is explicitly set, validation fails; when both are unset, the
    search-attribute checks pass, the run never calls the parser, and the
    composed options hold no register-search-attributes directive. *)
Theorem C4_search_attribute_pairing (c : cli.Context) :
  (xorb (cli.IsSet c searchAttrKey) (cli.IsSet c searchAttrType) = true ->
   exists msg, Before c = Some (cli.Exit msg 1)) /\
  (cli.IsSet c searchAttrKey = false ->
   cli.IsSet c searchAttrType = false ->
   searchAttributesValid c = None /\
   (forall keys types, CallParseSearchAttributes keys types ∉ trace (Run c)) /\
   forall opts, result (composeOptions c) = Return opts ->
     existsb isWithSearchAttributes opts = false).
Proof.
  split.
  - intros Hx. unfold Before, searchAttributesValid.
    destruct (0 <? length (cli.Args c))%nat; [eauto|].
    destruct (cli.IsSet c ephemeralFlag && cli.IsSet c dbPathFlag); [eauto|].
    destruct (cli.IsSet c searchAttrKey), (cli.IsSet c searchAttrType);
      try discriminate; simpl; eauto.
  - intros Hk Ht. split; [|split].
    + unfold searchAttributesValid. by rewrite Hk, Ht.
    + intros keys types Hin. unfold Run in Hin.
      destruct (Before c); [by apply elem_of_nil in Hin|].
      apply Action_parse_call, composeOptions_parse_call in Hin as (Hk' & _).
      congruence.
    + revert Hk Ht. compose_cases c; try discriminate;
        intros _ _ opts [= <-]; reflexivity.
Qed.

(** C5, amended.  A log-format value outside json and pretty makes
    validation fail; when the earlier checks pass (no positional argument,
    no ephemeral/filename conflict, search attributes valid) the failure is
    the one whose message cites the bad value and the flag name: it is
    [bad value %q passed for flag %q] of the two, in which a value of plain
    characters stands word for word; json and pretty pass; the composed
    options hold a logger override exactly when the value is pretty, and
    for a validated input they are composed unless the parser or the logger
    construction returns an error. *)
Theorem C5_log_format (c : cli.Context) :
  let v := cli.String c logFormatFlag in
  let msg := "bad value " +:+ quote v +:+ " passed for flag " +:+ quote logFormatFlag in
  (v <> "json" -> v <> "pretty" -> exists m, Before c = Some (cli.Exit m 1)) /\
  (cli.Args c = [] ->
   cli.IsSet c ephemeralFlag && cli.IsSet c dbPathFlag = false ->
   searchAttributesValid c = None ->
   (v <> "json" -> v <> "pretty" -> Before c = Some (cli.Exit msg 1)) /\
   (v = "json" \/ v = "pretty" -> Before c = None)) /\
  contains msg (quote v) = true /\
  (plain v = true -> contains msg v = true) /\
  contains msg logFormatFlag = true /\
  (forall opts, result (composeOptions c) = Return opts ->
     (existsb isWithLogger opts = true <-> v = "pretty")) /\
  (Before c = None ->
   (cli.IsSet c searchAttrKey = true ->
    exists sa,
      parseSearchAttributes (cli.StringSlice c searchAttrKey)
        (cli.StringSlice c searchAttrType) = Return sa) ->
   (v = "pretty" -> Build_err = None) ->
   exists opts, result (composeOptions c) = Return opts /\
     (existsb isWithLogger opts = true <-> v = "pretty")).
Proof.
  intros v msg.
  assert (Hlog : forall opts, result (composeOptions c) = Return opts ->
            (existsb isWithLogger opts = true <-> v = "pretty")).
  { subst v. compose_cases c; intros opts; try discriminate;
      intros [= <-]; simpl; split; done. }
  split; [|split; [|split; [|split; [|split; [|split]]]]].
  - intros Hj Hp.
    destruct (Before c) as [err|] eqn:E.
    + destruct (Before_exit _ _ E) as (m & -> & _). eauto.
    + apply Before_None in E as (_ & _ & _ & [H|H]); by subst v.
  - intros Hargs Hconf Hsa. unfold Before. rewrite Hargs, Hconf, Hsa. simpl.
    fold v. split.
    + intros Hj Hp.
      destruct (String.eqb_spec v "json"); [done|].
      destruct (String.eqb_spec v "pretty"); done.
    + intros [->| ->]; reflexivity.
  - apply contains_app_r, contains_here, hasPrefix_app.
  - intros Hv. by apply contains_app_r, contains_app_l, contains_quote_plain.
  - subst msg. do 2 apply contains_app_r. reflexivity.
  - exact Hlog.
  - intros E Hsa Hb.
    destruct (composeOptions_Return c) as (rest & H & _); [|done|eauto].
    by rewrite (Before_None_both c E).
Qed.

(** C6.  For a validated input the options are composed whenever the
    parser (if the search-attribute flags are set) and the logger
    construction (if the format is pretty) return no error, and composed
    options always start with the frontend-port, database-file-path,
    namespace-list and upstream-interrupt directives, in ephemeral mode or
    not; in ephemeral mode the persistence-disabled directive comes right
    after these four; what follows is only the search-attribute and logger
    directives. *)
Theorem C6_base_options (c : cli.Context) :
  (Before c = None ->
   (cli.IsSet c searchAttrKey = true ->
    exists sa,
      parseSearchAttributes (cli.StringSlice c searchAttrKey)
        (cli.StringSlice c searchAttrType) = Return sa) ->
   (cli.String c logFormatFlag = "pretty" -> Build_err = None) ->
   exists rest,
     result (composeOptions c)
     = Return ([ WithFrontendPort (cli.Int c portFlag);
                 WithDatabaseFilePath (cli.String c dbPathFlag);
                 WithNamespaces (cli.StringSlice c namespaceFlag);
                 WithUpstreamOptions InterruptOn_InterruptCh ]
               ++ (if cli.Bool c ephemeralFlag
                   then [WithPersistenceDisabled] else [])
               ++ rest)%list /\
     forallb (fun o => isWithSearchAttributes o || isWithLogger o) rest = true) /\
  (forall opts : list ServerOption,
     result (composeOptions c) = Return opts ->
     exists rest,
       opts = ([ WithFrontendPort (cli.Int c portFlag);
                 WithDatabaseFilePath (cli.String c dbPathFlag);
                 WithNamespaces (cli.StringSlice c namespaceFlag);
                 WithUpstreamOptions InterruptOn_InterruptCh ]
               ++ (if cli.Bool c ephemeralFlag
                   then [WithPersistenceDisabled] else [])
               ++ rest)%list /\
       forallb (fun o => isWithSearchAttributes o || isWithLogger o) rest = true).
Proof.
  split.
  - intros E Hsa Hb. apply composeOptions_Return; [|done].
    by rewrite (Before_None_both c E).
  - compose_cases c; intros opts; try discriminate; intros [= <-];
      eexists; (split; [reflexivity|reflexivity]).
Qed.

(** C7.  When both search-attribute lists are set and their lengths
    differ, validation fails; an input that fails validation leads to no
    call of the parser, and every call of the parser comes after a passed
    validation, on lists of equal length. *)
Theorem C7_length_mismatch (c : cli.Context) :
  (cli.IsSet c searchAttrKey = true ->
   cli.IsSet c searchAttrType = true ->
   length (cli.StringSlice c searchAttrKey)
     <> length (cli.StringSlice c searchAttrType) ->
   exists msg, Before c = Some (cli.Exit msg 1)) /\
  (forall err, Before c = Some err ->
     forallb (fun e => negb (isCallParse e)) (trace (Run c)) = true) /\
  (forall keys types,
     CallParseSearchAttributes keys types ∈ trace (Run c) ->
     Before c = None /\ length keys = length types).
Proof.
  split; [|split].
  - intros Hk Ht Hlen.
    destruct (Before c) as [err|] eqn:E.
    + destruct (Before_exit _ _ E) as (m & -> & _). eauto.
    + apply Before_None in E as (_ & _ & E & _).
      apply searchAttributesValid_None in E as [_ E]. by specialize (E Hk).
  - intros err E. by rewrite (Run_Before_Some _ _ E).
  - intros keys types Hin. unfold Run in Hin.
    destruct (Before c) as [err|] eqn:E.
    { by apply elem_of_nil in Hin. }
    split; [done|].
    apply Action_parse_call, composeOptions_parse_call in Hin
      as (Hk & _ & -> & ->).
    apply Before_None in E as (_ & _ & E & _).
    apply searchAttributesValid_None in E as [_ E]. by apply E.
Qed.

(** C10.  The validator reports the failure of the earliest violated rule
    in the order positional arguments, ephemeral/filename conflict,
    search-attribute pairing, search-attribute list length, log format, and
    passes when no rule is violated; in particular an input with a
    positional argument reports the positional-argument error whatever else
    is wrong with it. *)
Theorem C10_earliest_check (c : cli.Context) :
  Before c = spec_firstViolation c /\
  (cli.Args c <> [] ->
   Before c = Some (cli.Exit "ERROR: start command doesn't support arguments." 1)).
Proof.
  split.
  - unfold Before, spec_firstViolation, spec_rules, searchAttributesValid.
    cbn [find fst snd].
    destruct (cli.Args c) as [|a l]; cbn [length Nat.ltb Nat.leb Nat.eqb negb fmap option_fmap option_map];
      [|reflexivity].
    destruct (cli.IsSet c ephemeralFlag), (cli.IsSet c dbPathFlag);
      cbn [andb fmap option_fmap option_map]; try reflexivity;
    (destruct (cli.IsSet c searchAttrKey), (cli.IsSet c searchAttrType);
      cbn [andb orb xorb negb fmap option_fmap option_map]; try reflexivity;
     try (rewrite (Nat.eqb_sym (length (cli.StringSlice c searchAttrType)));
          destruct (_ =? _)%nat;
          cbn [andb orb xorb negb fmap option_fmap option_map]; try reflexivity);
     by rewrite <- logFormat_known; destruct (_ || _)).
  - intros Hargs. unfold Before. by destruct (cli.Args c).
Qed.

(** C2.  On key and type lists of equal length whose type tokens are all
    names of the enum, the parser returns a map, and the map binds a name to
    a type exactly when the name is listed and the type is the one listed
    against its last occurrence. *)
Theorem C2_parse_success (keys types : list string) :
  length keys = length types ->
  (forall ty, ty ∈ types -> is_Some (IndexedValueType_value !! ty)) ->
  exists sa : gmap string Z,
    parseSearchAttributes keys types = Return sa /\
    forall (k : string) (v : Z),
      sa !! k = Some v <->
      exists (i : nat) (ty : string),
        keys !! i = Some k /\ types !! i = Some ty /\
        IndexedValueType_value !! ty = Some v /\
        forall j : nat, (i < j)%nat -> keys !! j <> Some k.
Proof.
  intros Hlen Hok.
  destruct (parseLoop_ok types keys 0 ∅) as (sa & Hsa & Hiff).
  { simpl. lia. }
  { intros j ty _ Hty. apply Hok. by eapply list_elem_of_lookup_2. }
  exists sa. split; [done|]. intros k v. rewrite Hiff. split.
  - intros [H|[_ H]]; [exact H|by rewrite lookup_empty in H].
  - intros H. left. exact H.
Qed.

(** C3, amended.  When the first type token that is not a name of the enum
    stands at a position below the length of the key list (as it always
    does for lists of equal length), the parser fails with the error whose
    message carries that token, and so returns no map. *)
Theorem C3_parse_failure (keys types : list string) (i : nat) (ty : string) :
  types !! i = Some ty ->
  IndexedValueType_value !! ty = None ->
  (forall (j : nat) (ty' : string),
     (j < i)%nat -> types !! j = Some ty' ->
     is_Some (IndexedValueType_value !! ty')) ->
  (i < length keys)%nat ->
  parseSearchAttributes keys types
  = Fail (errorString
      ("the type: " +:+ ty +:+ " is not a valid type for a search attribute")) /\
  contains ("the type: " +:+ ty +:+ " is not a valid type for a search attribute") ty
  = true.
Proof.
  intros Hi Hbad Hfirst Hlt. split.
  - apply (parseLoop_fail types i ty Hi Hbad Hfirst); simpl; lia.
  - apply contains_middle.
Qed.

(** C9.  When the type list is at least as long as the key list, no access
    [types[i]] of the parser is out of range: the parser does not panic; and
    the command as a whole never panics, since the parser is only reached
    after the validator has checked the lengths equal. *)
Theorem C9_no_index_fault :
  (forall keys types : list string,
     (length keys <= length types)%nat ->
     panics (parseSearchAttributes keys types) = false) /\
  (forall (c : cli.Context) (keys types : list string),
     CallParseSearchAttributes keys types ∈ trace (Run c) ->
     panics (parseSearchAttributes keys types) = false) /\
  (forall c : cli.Context, panics (result (Run c)) = false).
Proof.
  split; [|split].
  - intros keys types Hlen. by apply parseLoop_no_panic.
  - intros c keys types Hin. unfold Run in Hin.
    destruct (Before c) as [err|] eqn:E.
    { by apply elem_of_nil in Hin. }
    apply Action_parse_call, composeOptions_parse_call in Hin
      as (Hk & _ & -> & ->).
    apply Before_None in E as (_ & _ & E & _).
    apply searchAttributesValid_None in E as [_ E].
    apply parseLoop_no_panic. rewrite (E Hk). simpl. lia.
  - apply Run_no_panic.
Qed.

Ltac exit_cases :=
  repeat match goal with
  | |- _ /\ _ => split
  | |- _ <-> _ => split
  | |- forall _, _ => intro
  end;
  repeat match goal with
  | H : _ /\ _ |- _ => destruct H
  | H : exists _, _ |- _ => destruct H
  | Hpf : forall err, _ -> _ -> _ = Fail err -> _,
    H : parseSearchAttributes _ _ = Fail _ |- _ => apply Hpf in H; [|done..]
  end;
  simplify_eq; try done; eauto 10.

Lemma main_Before_Some (c : cli.Context) (err : error) :
  Before c = Some err ->
  main c = {| stderr := [Error err]; status := 1 |}.
Proof.
  intros E. unfold main. rewrite (Run_Before_Some _ _ E).
  destruct (Before_exit _ _ E) as (m & -> & Hm).
  unfold result, cli.Exit. cbn [snd Error].
  by destruct (String.eqb_spec m EmptyString).
Qed.

Lemma main_compose_Fail (c : cli.Context) (err : error) :
  Before c = None ->
  result (composeOptions c) = Fail err ->
  main c = {| stderr := [timestamp +:+ Error err]; status := 1 |}.
Proof.
  intros E Hf. destruct (composeOptions_Fail c err Hf) as [m ->].
  unfold main, Run, Action. rewrite E. unfold result in *.
  destruct (composeOptions c) as [tr o]. cbn [snd] in Hf. subst o.
  reflexivity.
Qed.

Lemma main_composed (c : cli.Context) (opts : list ServerOption) :
  Before c = None ->
  result (composeOptions c) = Return opts ->
  main c =
    match NewServer_err opts with
    | Some e => {| stderr := [timestamp +:+ e]; status := 1 |}
    | None =>
      match Start_err opts with
      | Some e => {| stderr := ["Unable to start server. Error: " +:+ e];
                     status := 1 |}
      | None => {| stderr := ["All services are stopped."]; status := 0 |}
      end
    end.
Proof.
  intros E Hr. unfold main, Run, Action. rewrite E. unfold result in *.
  destruct (composeOptions c) as [tr o]. cbn [snd] in Hr. subst o.
  unfold call, raise, cli.Exit. cbn [bind].
  destruct (NewServer_err opts); cbn [bind snd]; [done|].
  destruct (Start_err opts); cbn [bind snd]; [|done].
  by destruct (String.eqb_spec ("Unable to start server. Error: " +:+ s) EmptyString).
Qed.

Lemma composeOptions_parse_Fail (c : cli.Context) (err : error) :
  cli.IsSet c searchAttrKey = true ->
  cli.IsSet c searchAttrType = true ->
  parseSearchAttributes (cli.StringSlice c searchAttrKey)
    (cli.StringSlice c searchAttrType) = Fail err ->
  result (composeOptions c) = Fail err.
Proof.
  intros Hk Ht E. unfold composeOptions, call, ret, bind, result.
  rewrite Hk, Ht, E. cbn [andb]. by destruct (cli.Bool c ephemeralFlag).
Qed.

(** C8.  The exit status is 0 or 1 and one message is written; it is 0
    exactly when validation passed, the options were composed, the server
    was constructed and [Start] returned without error, and the message
    then is the informational one; every validation failure, every failure
    to parse the search attributes, every failure to build the logger,
    every failure to construct the server and every failure to start it
    gives status 1 with the failure's own message, which [log.Fatal] writes
    behind the date and time when the error is a plain one. *)
Theorem C8_exit_status (c : cli.Context) :
  ((status (main c) = 0 \/ status (main c) = 1) /\
   (exists msg, stderr (main c) = [msg]) /\
   (status (main c) = 0 <->
      Before c = None /\
      exists opts, result (composeOptions c) = Return opts /\
        NewServer_err opts = None /\ Start_err opts = None) /\
   (status (main c) = 0 -> stderr (main c) = ["All services are stopped."]) /\
   (forall err, Before c = Some err ->
      status (main c) = 1 /\ stderr (main c) = [Error err]) /\
   (Before c = None ->
    (cli.IsSet c searchAttrKey = true -> cli.IsSet c searchAttrType = true ->
     forall err,
       parseSearchAttributes (cli.StringSlice c searchAttrKey)
         (cli.StringSlice c searchAttrType) = Fail err ->
       status (main c) = 1 /\ stderr (main c) = [timestamp +:+ Error err]) /\
    (forall err, result (composeOptions c) = Fail err ->
       status (main c) = 1 /\ stderr (main c) = [timestamp +:+ Error err]) /\
    (forall opts, result (composeOptions c) = Return opts ->
       (forall e, NewServer_err opts = Some e ->
          status (main c) = 1 /\ stderr (main c) = [timestamp +:+ e]) /\
       (forall e, NewServer_err opts = None -> Start_err opts = Some e ->
          status (main c) = 1 /\
          stderr (main c) = ["Unable to start server. Error: " +:+ e])))) /\
  (Before c = None ->
   (cli.IsSet c searchAttrKey = true ->
    exists sa,
      parseSearchAttributes (cli.StringSlice c searchAttrKey)
        (cli.StringSlice c searchAttrType) = Return sa) ->
   (cli.String c logFormatFlag = "pretty" ->
    forall e, Build_err = Some e ->
      status (main c) = 1 /\ stderr (main c) = [timestamp +:+ e]) /\
   ((cli.String c logFormatFlag = "pretty" -> Build_err = None) ->
    exists opts, result (composeOptions c) = Return opts)).
Proof.
  split.
  - assert (Hpf := composeOptions_parse_Fail c).
    destruct (Before c) as [err|] eqn:E.
    + rewrite (main_Before_Some c err E). cbn [status stderr].
      exit_cases.
    + pose proof (Before_None_no_panic c E) as Hnp.
      destruct (result (composeOptions c)) as [opts|err|msg] eqn:Ec; [| |done].
      * rewrite (main_composed c opts E Ec).
        destruct (NewServer_err opts) as [e1|] eqn:E1;
          [|destruct (Start_err opts) as [e2|] eqn:E2]; cbn [status stderr];
          exit_cases.
      * rewrite (main_compose_Fail c err E Ec). cbn [status stderr].
        exit_cases.
  - intros E Hsa. rewrite <- (Before_None_both c E) in Hsa. split.
    + intros Hp e He.
      by rewrite (main_compose_Fail c _ E
                    (composeOptions_Build_Fail c e Hsa Hp He)).
    + intros Hb. destruct (composeOptions_Return c Hsa Hb) as (rest & H & _).
      eauto.
Qed.

(** ** More on the parser *)

(** How the loop ends, read off the type list from index [i] on. *)
Lemma parseLoop_inv (types : list string) :
  forall (keys : list string) (i : nat) (m : gmap string Z),
    (i <= length types)%nat ->
    match parseLoop i keys types m with
    | Return _ =>
      (i + length keys <= length types)%nat /\
      forall (j : nat) (ty : string),
        (i <= j < i + length keys)%nat -> types !! j = Some ty ->
        is_Some (IndexedValueType_value !! ty)
    | Fail err =>
      exists (j : nat) (ty : string),
        (i <= j < i + length keys)%nat /\ types !! j = Some ty /\
        IndexedValueType_value !! ty = None /\ err = invalidType ty /\
        forall (j' : nat) (ty' : string),
          (i <= j' < j)%nat -> types !! j' = Some ty' ->
          is_Some (IndexedValueType_value !! ty')
    | Panic _ =>
      (length types < i + length keys)%nat /\
      forall (j : nat) (ty : string),
        (i <= j)%nat -> types !! j = Some ty ->
        is_Some (IndexedValueType_value !! ty)
    end.
Proof.
  induction keys as [|key keys IH]; intros i m Hi; simpl.
  { split; [lia|]. intros j ty Hj. lia. }
  destruct (types !! i) as [ty0|] eqn:Hty0.
  - destruct (IndexedValueType_value !! ty0) as [t|] eqn:Ht.
    + apply lookup_lt_Some in Hty0 as Hlt.
      specialize (IH (S i) (<[key := t]> m) ltac:(lia)).
      destruct (parseLoop (S i) keys types (<[key := t]> m)) as [sa|err|msg].
      * destruct IH as [Hlen Hok]. split; [lia|].
        intros j ty Hj Hty. destruct (decide (j = i)) as [->|Hne].
        { rewrite Hty0 in Hty. injection Hty as <-. by eexists. }
        apply (Hok j ty); [lia|done].
      * destruct IH as (j & ty & Hj & Hty & Hbad & -> & Hfirst).
        exists j, ty. repeat split; try done; try lia.
        intros j' ty' Hj' Hty'. destruct (decide (j' = i)) as [->|Hne].
        { rewrite Hty0 in Hty'. injection Hty' as <-. by eexists. }
        apply (Hfirst j' ty'); [lia|done].
      * destruct IH as [Hlen Hok]. split; [lia|].
        intros j ty Hj Hty. destruct (decide (j = i)) as [->|Hne].
        { rewrite Hty0 in Hty. injection Hty as <-. by eexists. }
        apply (Hok j ty); [lia|done].
    + exists i, ty0. repeat split; try done; lia.
  - apply lookup_ge_None in Hty0. split; [lia|].
    intros j ty Hj Hty. apply lookup_lt_Some in Hty. lia.
Qed.

(** X1.  The parser returns a map exactly when the type list is at least
    as long as the key list and every type token standing against a key is
    a name of the enum. *)
Theorem parse_returns_iff (keys types : list string) :
  (exists sa, parseSearchAttributes keys types = Return sa) <->
  (length keys <= length types)%nat /\
  forall (j : nat) (ty : string),
    (j < length keys)%nat -> types !! j = Some ty ->
    is_Some (IndexedValueType_value !! ty).
Proof.
  pose proof (parseLoop_inv types keys 0 ∅ ltac:(lia)) as H.
  unfold parseSearchAttributes. split.
  - intros [sa Hsa]. rewrite Hsa in H. destruct H as [Hlen Hok].
    split; [done|]. intros j ty Hj. apply Hok. lia.
  - intros [Hlen Hok].
    destruct (parseLoop 0 keys types ∅) as [sa|err|msg]; [eauto|exfalso..].
    + destruct H as (j & ty & Hj & Hty & Hbad & _).
      destruct (Hok j ty) as [t Ht]; [lia|done|congruence].
    + simpl in H. lia.
Qed.

(** X2.  The parser returns an error exactly when some type token standing
    against a key is not a name of the enum, and the error is then the one
    of the first such token. *)
Theorem parse_fails_iff (keys types : list string) (err : error) :
  parseSearchAttributes keys types = Fail err <->
  exists (i : nat) (ty : string),
    (i < length keys)%nat /\ types !! i = Some ty /\
    IndexedValueType_value !! ty = None /\
    (forall (j : nat) (ty' : string),
       (j < i)%nat -> types !! j = Some ty' ->
       is_Some (IndexedValueType_value !! ty')) /\
    err = errorString
      ("the type: " +:+ ty +:+ " is not a valid type for a search attribute").
Proof.
  split.
  - intros Hf.
    pose proof (parseLoop_inv types keys 0 ∅ ltac:(lia)) as H.
    unfold parseSearchAttributes in Hf. rewrite Hf in H.
    destruct H as (j & ty & Hj & Hty & Hbad & -> & Hfirst).
    exists j, ty. repeat split; try done; try lia.
    intros j' ty' Hj'. apply Hfirst. lia.
  - intros (i & ty & Hi & Hty & Hbad & Hfirst & ->).
    apply (parseLoop_fail types i ty Hty Hbad Hfirst); simpl; lia.
Qed.

(** X3.  The parser panics on an index out of range exactly when the type
    list is shorter than the key list and all of its tokens are names of
    the enum. *)
Theorem parse_panics_iff (keys types : list string) :
  panics (parseSearchAttributes keys types) = true <->
  (length types < length keys)%nat /\
  forall ty, ty ∈ types -> is_Some (IndexedValueType_value !! ty).
Proof.
  pose proof (parseLoop_inv types keys 0 ∅ ltac:(lia)) as H.
  unfold parseSearchAttributes. split.
  - destruct (parseLoop 0 keys types ∅) as [sa|err|msg]; try discriminate.
    intros _. destruct H as [Hlen Hok]. split; [done|].
    intros ty [j Hj]%list_elem_of_lookup_1. apply (Hok j ty); [lia|done].
  - intros [Hlen Hok].
    destruct (parseLoop 0 keys types ∅) as [sa|err|msg]; [exfalso..|done].
    + simpl in H. lia.
    + destruct H as (j & ty & _ & Hty & Hbad & _).
      destruct (Hok ty) as [t Ht]; [by eapply list_elem_of_lookup_2|congruence].
Qed.

Lemma parseLoop_take (types : list string) :
  forall (keys : list string) (i : nat) (m : gmap string Z),
    parseLoop i keys types m
    = parseLoop i keys (take (i + length keys) types) m.
Proof.
  induction keys as [|key keys IH]; intros i m; simpl; [done|].
  rewrite lookup_take_lt by lia.
  destruct (types !! i) as [ty|]; [|done].
  destruct (IndexedValueType_value !! ty) as [t|]; [|done].
  rewrite IH. by replace (S i + length keys)%nat with (i + S (length keys))%nat by lia.
Qed.

(** X4.  The parser never looks at a type token beyond the length of the
    key list: cutting the type list to that length changes nothing. *)
Theorem parse_ignores_surplus_types (keys types : list string) :
  parseSearchAttributes keys types
  = parseSearchAttributes keys (take (length keys) types).
Proof. apply (parseLoop_take types keys 0 ∅). Qed.

Lemma parseLoop_dom (types : list string) :
  forall (keys : list string) (i : nat) (m sa : gmap string Z),
    parseLoop i keys types m = Return sa ->
    dom sa = list_to_set keys ∪ dom m.
Proof.
  induction keys as [|key keys IH]; intros i m sa; simpl.
  - intros [= <-]. by rewrite (left_id_L ∅ (∪)).
  - destruct (types !! i) as [ty|]; [|discriminate].
    destruct (IndexedValueType_value !! ty) as [t|]; [|discriminate].
    intros H. rewrite (IH _ _ _ H), dom_insert_L.
    rewrite (assoc_L (∪)). f_equal. apply (comm_L (∪)).
Qed.

Lemma size_list_to_set_le (l : list string) :
  (size (list_to_set l : gset string) <= length l)%nat.
Proof.
  induction l as [|x l IH].
  - by rewrite list_to_set_nil, size_empty.
  - rewrite list_to_set_cons, size_union_alt, size_singleton.
    pose proof (subseteq_size (list_to_set l ∖ {[x]}) (list_to_set l : gset string)
                  (subseteq_difference_l _ _ _ (reflexivity _))).
    simpl. lia.
Qed.

(** X5.  The names of a parsed map are exactly the listed keys; so the map
    has at most as many entries as keys were listed, and as many when no
    key is listed twice. *)
Theorem parse_dom (keys types : list string) (sa : gmap string Z) :
  parseSearchAttributes keys types = Return sa ->
  dom sa = list_to_set keys /\
  (size sa <= length keys)%nat /\
  (NoDup keys -> size sa = length keys).
Proof.
  intros H. apply parseLoop_dom in H.
  rewrite dom_empty_L, (right_id_L ∅ (∪)) in H.
  split; [done|]. rewrite <- size_dom, H. split.
  - apply size_list_to_set_le.
  - apply size_list_to_set.
Qed.

Lemma parseLoop_acc (types : list string) :
  forall (keys : list string) (i : nat) (m : gmap string Z),
    parseLoop i keys types m
    = match parseLoop i keys types ∅ with
      | Return sa => Return (sa ∪ m)
      | Fail err => Fail err
      | Panic msg => Panic msg
      end.
Proof.
  induction keys as [|key keys IH]; intros i m; simpl.
  - by rewrite (left_id_L ∅ (∪)).
  - destruct (types !! i) as [ty|]; [|done].
    destruct (IndexedValueType_value !! ty) as [t|]; [|done].
    rewrite (IH (S i) (<[key := t]> m)), (IH (S i) (<[key := t]> ∅)).
    destruct (parseLoop (S i) keys types ∅) as [sa| |]; [|done..].
    by rewrite insert_empty, <- (assoc_L (∪)), <- insert_union_singleton_l.
Qed.

Lemma parseLoop_app (types : list string) :
  forall (keys1 keys2 : list string) (i : nat) (m : gmap string Z),
    parseLoop i (keys1 ++ keys2) types m
    = match parseLoop i keys1 types m with
      | Return m1 => parseLoop (i + length keys1) keys2 types m1
      | Fail err => Fail err
      | Panic msg => Panic msg
      end.
Proof.
  induction keys1 as [|key keys1 IH]; intros keys2 i m; simpl.
  - by rewrite Nat.add_0_r.
  - destruct (types !! i) as [ty|]; [|done].
    destruct (IndexedValueType_value !! ty) as [t|]; [|done].
    rewrite IH. by replace (S i + length keys1)%nat
      with (i + S (length keys1))%nat by lia.
Qed.

Lemma parseLoop_shift (types1 types2 : list string) :
  forall (keys : list string) (j : nat) (m : gmap string Z),
    parseLoop (length types1 + j) keys (types1 ++ types2) m
    = parseLoop j keys types2 m.
Proof.
  induction keys as [|key keys IH]; intros j m; simpl; [done|].
  rewrite lookup_app_r by lia.
  replace (length types1 + j - length types1)%nat with j by lia.
  destruct (types2 !! j) as [ty|]; [|done].
  destruct (IndexedValueType_value !! ty) as [t|]; [|done].
  by rewrite <- IH, Nat.add_succ_r.
Qed.

(** X6.  Parsing two pairs of lists laid end to end, the first pair of
    equal length: an error of the first pair is the result; otherwise the
    result is that of the second pair, and two maps are joined with the
    entries of the second overriding those of the first. *)
Theorem parse_app (keys1 keys2 types1 types2 : list string) :
  length keys1 = length types1 ->
  parseSearchAttributes (keys1 ++ keys2) (types1 ++ types2)
  = match parseSearchAttributes keys1 types1 with
    | Return m1 =>
      match parseSearchAttributes keys2 types2 with
      | Return m2 => Return (m2 ∪ m1)
      | Fail err => Fail err
      | Panic msg => Panic msg
      end
    | Fail err => Fail err
    | Panic msg => Panic msg
    end.
Proof.
  intros Hlen. unfold parseSearchAttributes.
  rewrite parseLoop_app.
  rewrite (parseLoop_take (types1 ++ types2) keys1 0 ∅).
  rewrite (take_app_length' types1 types2) by (simpl; lia).
  destruct (parseLoop 0 keys1 types1 ∅) as [m1| |]; [|done..].
  replace (0 + length keys1)%nat with (length types1 + 0)%nat by lia.
  rewrite parseLoop_shift. apply parseLoop_acc.
Qed.

(** ** More on the validator *)

(** X7.  Validation passes exactly when there is no positional argument,
    the ephemeral and filename flags are not both set, the two
    search-attribute flags are both set or both unset, their lists have the
    same length when set, and the log format is json or pretty. *)
Theorem Before_passes_iff (c : cli.Context) :
  Before c = None <->
  cli.Args c = [] /\
  (cli.IsSet c ephemeralFlag = false \/ cli.IsSet c dbPathFlag = false) /\
  cli.IsSet c searchAttrType = cli.IsSet c searchAttrKey /\
  (cli.IsSet c searchAttrKey = true ->
   length (cli.StringSlice c searchAttrKey)
   = length (cli.StringSlice c searchAttrType)) /\
  (cli.String c logFormatFlag = "json" \/ cli.String c logFormatFlag = "pretty").
Proof.
  split.
  - intros H. apply Before_None in H as (Hargs & Hconf & Hsa & Hlf).
    apply searchAttributesValid_None in Hsa as [Heq Hlen].
    repeat split; try done.
    by apply andb_false_iff.
  - intros (Hargs & Hconf & Heq & Hlen & Hlf).
    unfold Before, searchAttributesValid. rewrite Hargs, Heq. simpl.
    apply andb_false_iff in Hconf. rewrite Hconf.
    destruct (cli.IsSet c searchAttrKey); simpl.
    + rewrite (Hlen eq_refl), Nat.eqb_refl. simpl.
      by destruct Hlf as [-> | ->].
    + by destruct Hlf as [-> | ->].
Qed.

(** The case analysis below tells the messages of the validator apart by
    their eighth byte; [G1] to [G5] say what that byte is. *)
Ltac msg_cases G1 G2 G3 G4 G5 :=
  repeat match goal with
  | |- _ /\ _ => split
  | |- _ <-> _ => split
  | |- _ -> _ => intro
  | H : _ /\ _ |- _ => destruct H
  | H : exists _, _ |- _ => destruct H
  end;
  try match goal with
  | H : Some (cli.Exit _ _) = Some (cli.Exit _ _) |- _ =>
    injection H as H; apply (f_equal (String.get 7)) in H;
    rewrite ?G1, ?G2, ?G3, ?G4, ?G5 in H; discriminate H
  | H : None = Some _ |- _ => discriminate H
  end;
  try (eexists; reflexivity); try done; try congruence.

(** X8.  The five failures of the validator are told apart by their
    messages: each message is reported exactly when its check is the first
    to fail. *)
Theorem Before_message_iff (c : cli.Context) :
  (Before c = Some (cli.Exit "ERROR: start command doesn't support arguments." 1)
   <-> cli.Args c <> []) /\
  (Before c = Some (cli.Exit
     ("ERROR: only one of " +:+ quote ephemeralFlag +:+ " or " +:+ quote dbPathFlag
        +:+ " flags may be passed at a time") 1)
   <-> cli.Args c = [] /\
       cli.IsSet c ephemeralFlag && cli.IsSet c dbPathFlag = true) /\
  (Before c = Some (cli.Exit
     ("ERROR: both " +:+ quote searchAttrType +:+ " and " +:+ quote searchAttrKey
        +:+ " must be set at the same time, or omitted completely") 1)
   <-> cli.Args c = [] /\
       cli.IsSet c ephemeralFlag && cli.IsSet c dbPathFlag = false /\
       cli.IsSet c searchAttrType <> cli.IsSet c searchAttrKey) /\
  (Before c = Some (cli.Exit
     ("ERROR: number of search attributes (type/key) in " +:+ quote searchAttrType
        +:+ " and " +:+ quote searchAttrKey +:+ " must be the same") 1)
   <-> cli.Args c = [] /\
       cli.IsSet c ephemeralFlag && cli.IsSet c dbPathFlag = false /\
       cli.IsSet c searchAttrType = true /\ cli.IsSet c searchAttrKey = true /\
       length (cli.StringSlice c searchAttrType)
       <> length (cli.StringSlice c searchAttrKey)) /\
  ((exists rest, Before c = Some (cli.Exit ("bad value " +:+ rest) 1))
   <-> cli.Args c = [] /\
       cli.IsSet c ephemeralFlag && cli.IsSet c dbPathFlag = false /\
       searchAttributesValid c = None /\
       cli.String c logFormatFlag <> "json" /\
       cli.String c logFormatFlag <> "pretty").
Proof.
  unfold Before, searchAttributesValid.
  set (m1 := "ERROR: start command doesn't support arguments.").
  set (m2 := "ERROR: only one of " +:+ quote ephemeralFlag +:+ " or "
               +:+ quote dbPathFlag +:+ " flags may be passed at a time").
  set (m3 := "ERROR: both " +:+ quote searchAttrType +:+ " and "
               +:+ quote searchAttrKey
               +:+ " must be set at the same time, or omitted completely").
  set (m4 := "ERROR: number of search attributes (type/key) in "
               +:+ quote searchAttrType +:+ " and " +:+ quote searchAttrKey
               +:+ " must be the same").
  assert (G1 : String.get 7 m1 = Some "s"%char) by reflexivity.
  assert (G2 : String.get 7 m2 = Some "o"%char) by reflexivity.
  assert (G3 : String.get 7 m3 = Some "b"%char) by reflexivity.
  assert (G4 : String.get 7 m4 = Some "n"%char) by reflexivity.
  assert (G5 : forall rest, String.get 7 ("bad value " +:+ rest) = Some "u"%char)
    by reflexivity.
  clearbody m1 m2 m3 m4.
  destruct (cli.Args c) as [|a l]; cbn [length Nat.ltb Nat.leb];
    [|msg_cases G1 G2 G3 G4 G5].
  destruct (cli.IsSet c ephemeralFlag && cli.IsSet c dbPathFlag);
    [msg_cases G1 G2 G3 G4 G5|].
  destruct (cli.IsSet c searchAttrType), (cli.IsSet c searchAttrKey);
    cbn [andb orb negb]; [|msg_cases G1 G2 G3 G4 G5..|].
  - destruct (Nat.eqb_spec (length (cli.StringSlice c searchAttrType))
                (length (cli.StringSlice c searchAttrKey))) as [Hl|Hl];
      cbn [negb]; [|msg_cases G1 G2 G3 G4 G5].
    destruct (String.eqb_spec (cli.String c logFormatFlag) "json") as [E1|E1];
      [|destruct (String.eqb_spec (cli.String c logFormatFlag) "pretty")
          as [E2|E2]]; cbn [orb]; msg_cases G1 G2 G3 G4 G5.
  - destruct (String.eqb_spec (cli.String c logFormatFlag) "json") as [E1|E1];
      [|destruct (String.eqb_spec (cli.String c logFormatFlag) "pretty")
          as [E2|E2]]; cbn [orb]; msg_cases G1 G2 G3 G4 G5.
Qed.

(** ** More on the run *)

Lemma Action_trace (c : cli.Context) :
  trace (Action c)
  = (trace (composeOptions c)
     ++ match result (composeOptions c) with
        | Return opts =>
          CallNewServer opts ::
          match NewServer_err opts with
          | None => [CallStart]
          | Some _ => []
          end
        | _ => []
        end)%list.
Proof.
  unfold Action, trace, result.
  destruct (composeOptions c) as [tr [opts|err|msg]]; cbn [bind fst snd];
    rewrite ?app_nil_r; try done.
  unfold call, raise.
  destruct (NewServer_err opts); cbn [bind fst snd app]; [done|].
  by destruct (Start_err opts); cbn [bind fst snd app]; rewrite ?app_nil_r.
Qed.

(** The composition calls nothing but the parser and the logger
    construction. *)
Lemma composeOptions_stages (c : cli.Context) (e : event) :
  e ∈ trace (composeOptions c) -> (stage e < 2)%nat.
Proof.
  compose_cases c; intros H;
    repeat match goal with
    | H : _ ∈ [] |- _ => by apply elem_of_nil in H
    | H : _ ∈ _ :: _ |- _ => apply elem_of_cons in H as [->|H]
    end; simpl; lia.
Qed.

(** X9.  The calls of a run come in the order parser, logger construction,
    server construction, start, each at most once. *)
Theorem Run_stages_in_order (c : cli.Context) :
  StronglySorted lt (stage <$> trace (Run c)).
Proof.
  unfold Run. destruct (Before c); [constructor|].
  rewrite Action_trace.
  compose_cases c; cbn [fmap list_fmap app];
    repeat match goal with
    | |- context [NewServer_err ?o] => destruct (NewServer_err o)
    end;
    cbn [fmap list_fmap app stage];
    repeat (constructor; try lia).
Qed.

Ltac elem_cases :=
  repeat match goal with
  | H : _ ∈ [] |- _ => by apply elem_of_nil in H
  | H : _ ∈ _ :: _ |- _ => apply elem_of_cons in H as [H|H]
  | H : _ ∈ _ ++ _ |- _ => apply elem_of_app in H as [H|H]
  end.

Lemma composeOptions_parse_called (c : cli.Context) :
  cli.IsSet c searchAttrKey = true ->
  cli.IsSet c searchAttrType = true ->
  CallParseSearchAttributes (cli.StringSlice c searchAttrKey)
    (cli.StringSlice c searchAttrType) ∈ trace (composeOptions c).
Proof.
  compose_cases c; intros; try discriminate; apply elem_of_cons; by left.
Qed.

(** X10.  The parser is called exactly when validation passed and the
    search-attribute flags are set, and then on the values of the two
    flags. *)
Theorem parser_called_iff (c : cli.Context) (keys types : list string) :
  CallParseSearchAttributes keys types ∈ trace (Run c) <->
  Before c = None /\ cli.IsSet c searchAttrKey = true /\
  keys = cli.StringSlice c searchAttrKey /\
  types = cli.StringSlice c searchAttrType.
Proof.
  unfold Run. destruct (Before c) as [err|] eqn:E.
  { split; [by intros H%elem_of_nil|by intros [[=] _]]. }
  split.
  - intros H. apply Action_parse_call, composeOptions_parse_call in H
      as (Hk & _ & -> & ->). done.
  - intros (_ & Hk & -> & ->).
    apply Before_None in E as (_ & _ & E & _).
    apply searchAttributesValid_None in E as [Ht _]. rewrite Hk in Ht.
    rewrite Action_trace. apply elem_of_app. left.
    by apply composeOptions_parse_called.
Qed.

Lemma composeOptions_build_call (c : cli.Context) :
  CallBuild ∈ trace (composeOptions c) <->
  cli.String c logFormatFlag = "pretty" /\
  (cli.IsSet c searchAttrType && cli.IsSet c searchAttrKey = true ->
   exists sa,
     parseSearchAttributes (cli.StringSlice c searchAttrKey)
       (cli.StringSlice c searchAttrType) = Return sa).
Proof.
  unfold composeOptions, call, ret, bind, trace.
  destruct (cli.IsSet c searchAttrType && cli.IsSet c searchAttrKey);
    [destruct (parseSearchAttributes (cli.StringSlice c searchAttrKey)
                 (cli.StringSlice c searchAttrType)) as [sa|err|msg]|];
    destruct (cli.Bool c ephemeralFlag);
    destruct (String.eqb_spec (cli.String c logFormatFlag) "pretty");
    try destruct Build_err; cbn [fst snd app];
    (split;
     [ intros H; elem_cases; try discriminate;
       (split; [done | first [by intros [=] | intros _; eauto]])
     | intros [Hp Hsa]; try done;
       try (by destruct (Hsa eq_refl) as [? [=]]);
       rewrite !elem_of_cons; auto ]).
Qed.

(** X11.  The logger is constructed exactly when validation passed, the log
    format is pretty, and the search attributes, if any were given, were
    parsed without error. *)
Theorem logger_built_iff (c : cli.Context) :
  CallBuild ∈ trace (Run c) <->
  Before c = None /\ cli.String c logFormatFlag = "pretty" /\
  (cli.IsSet c searchAttrKey = true ->
   exists sa,
     parseSearchAttributes (cli.StringSlice c searchAttrKey)
       (cli.StringSlice c searchAttrType) = Return sa).
Proof.
  unfold Run. destruct (Before c) as [err|] eqn:E.
  { split; [by intros H%elem_of_nil|by intros [[=] _]]. }
  apply Before_None in E as (_ & _ & E & _).
  apply searchAttributesValid_None in E as [Ht _].
  rewrite Action_trace, elem_of_app, composeOptions_build_call, Ht.
  split.
  - intros [[Hp Hsa]|H].
    + split; [done|]. split; [done|]. intros Hk. apply Hsa. by rewrite Hk.
    + destruct (result (composeOptions c)) as [opts| |]; [|by elem_cases..].
      destruct (NewServer_err opts); elem_cases; discriminate.
  - intros (_ & Hp & Hsa). left. split; [done|].
    intros Hk. apply Hsa. by destruct (cli.IsSet c searchAttrKey).
Qed.

(** X12.  The server is constructed exactly when validation passed and the
    options were composed, and from exactly those options; it is started
    exactly when, moreover, its construction returned no error. *)
Theorem server_calls_iff (c : cli.Context) :
  (forall opts,
     CallNewServer opts ∈ trace (Run c) <->
     Before c = None /\ result (composeOptions c) = Return opts) /\
  (CallStart ∈ trace (Run c) <->
   Before c = None /\
   exists opts, result (composeOptions c) = Return opts /\
     NewServer_err opts = None).
Proof.
  unfold Run. destruct (Before c) as [err|] eqn:E.
  { split; [intros opts|]; (split; [by intros H%elem_of_nil|by intros [[=] _]]). }
  rewrite Action_trace.
  split; [intros opts0|]; rewrite elem_of_app; split.
  - intros [H|H].
    { apply composeOptions_stages in H. simpl in H. lia. }
    destruct (result (composeOptions c)) as [opts| |]; [|by elem_cases..].
    destruct (NewServer_err opts); elem_cases; try discriminate;
      by injection H as ->.
  - intros [_ ->]. right. apply elem_of_cons. by left.
  - intros [H|H].
    { apply composeOptions_stages in H. simpl in H. lia. }
    destruct (result (composeOptions c)) as [opts| |]; [|by elem_cases..].
    destruct (NewServer_err opts) eqn:ENS; elem_cases; try discriminate.
    eauto.
  - intros (_ & opts & -> & ->). right. rewrite !elem_of_cons. auto.
Qed.

Lemma composeOptions_trace_Fail (c : cli.Context) (err : error) :
  cli.IsSet c searchAttrKey = true ->
  cli.IsSet c searchAttrType = true ->
  parseSearchAttributes (cli.StringSlice c searchAttrKey)
    (cli.StringSlice c searchAttrType) = Fail err ->
  trace (composeOptions c)
  = [CallParseSearchAttributes (cli.StringSlice c searchAttrKey)
       (cli.StringSlice c searchAttrType)].
Proof.
  intros Hk Ht E. unfold composeOptions, call, ret, bind, trace.
  rewrite Hk, Ht, E. cbn [andb]. by destruct (cli.Bool c ephemeralFlag).
Qed.

(** X13.  A validated input whose type list has a token that is not a name
    of the enum: the parser is the only thing called, and the process exits
    with status 1 and, behind the logger's date and time, the parser's
    message about the first such token. *)
Theorem unknown_type_exit (c : cli.Context) (i : nat) (ty : string) :
  Before c = None ->
  cli.IsSet c searchAttrKey = true ->
  cli.StringSlice c searchAttrType !! i = Some ty ->
  IndexedValueType_value !! ty = None ->
  (forall (j : nat) (ty' : string),
     (j < i)%nat -> cli.StringSlice c searchAttrType !! j = Some ty' ->
     is_Some (IndexedValueType_value !! ty')) ->
  main c
  = {| stderr :=
         [timestamp +:+ "the type: " +:+ ty
            +:+ " is not a valid type for a search attribute"];
       status := 1 |} /\
  trace (Run c)
  = [CallParseSearchAttributes (cli.StringSlice c searchAttrKey)
       (cli.StringSlice c searchAttrType)].
Proof.
  intros E Hk Hi Hbad Hfirst.
  pose proof (Before_None c E) as (_ & _ & Hsa & _).
  apply searchAttributesValid_None in Hsa as [Ht Hlen].
  rewrite Hk in Ht. specialize (Hlen Hk).
  assert (Hf : parseSearchAttributes (cli.StringSlice c searchAttrKey)
                 (cli.StringSlice c searchAttrType) = Fail (invalidType ty)).
  { apply (parseLoop_fail _ i ty Hi Hbad Hfirst); [lia|].
    apply lookup_lt_Some in Hi. simpl. lia. }
  pose proof (composeOptions_parse_Fail c _ Hk Ht Hf) as Hr.
  split.
  - by rewrite (main_compose_Fail c _ E Hr).
  - unfold Run. rewrite E, Action_trace, Hr, app_nil_r.
    by apply (composeOptions_trace_Fail c (invalidType ty)).
Qed.

(** X14.  The composed options hold a search-attribute directive exactly
    when both search-attribute flags are set, and the directive carries the
    map that the parser returned on the two flag values; a logger directive
    in them carries the logger with the colour level encoder, the caller
    off and stack traces from the error level. *)
Theorem composed_directives (c : cli.Context) (opts : list ServerOption) :
  result (composeOptions c) = Return opts ->
  (forall sa,
     WithSearchAttributes sa ∈ opts <->
     cli.IsSet c searchAttrKey = true /\ cli.IsSet c searchAttrType = true /\
     parseSearchAttributes (cli.StringSlice c searchAttrKey)
       (cli.StringSlice c searchAttrType) = Return sa) /\
  (forall l,
     WithLogger l ∈ opts ->
     l = NewZapLogger CapitalColorLevelEncoder
           [WithCaller false; AddStacktrace ErrorLevel]).
Proof.
  unfold composeOptions, call, ret, bind, result.
  destruct (cli.IsSet c searchAttrType) eqn:Ht,
    (cli.IsSet c searchAttrKey) eqn:Hk; cbn [andb];
    try destruct (parseSearchAttributes (cli.StringSlice c searchAttrKey)
                    (cli.StringSlice c searchAttrType)) as [sa0|err|msg];
    destruct (cli.Bool c ephemeralFlag);
    destruct (String.eqb_spec (cli.String c logFormatFlag) "pretty");
    try destruct Build_err; cbn [fst snd app];
    try discriminate; intros [= <-];
    (split;
     [ intros sa; split;
       [ intros H; elem_cases; try discriminate; by injection H as ->
       | intros (? & ? & H); try discriminate; injection H as ->;
         rewrite !elem_of_cons; auto 10 ]
     | intros l H; elem_cases; try discriminate; by injection H as -> ]).
Qed.

(** ** The flag table *)

Ltac accept_cases :=
  solve [ split;
    [ intros H; try discriminate H; repeat split; try done; auto
    | intros (H1 & H2 & H3 & H4); try done;
      repeat match goal with H : _ \/ _ |- _ => destruct H end;
      try discriminate; try congruence; done ] ].

(** X15.  Whatever the defaults are, validation passes on what the flag
    parser hands on exactly when there is no positional argument, not both
    the ephemeral and the filename flag were given, both search-attribute
    lists were given, of the same length, or neither, and json, pretty or
    nothing was given as log format. *)
Theorem raw_input_passes_iff (defaultCfg : liteconfig_Config)
    (DefaultFrontendPort : Z) (r : RawInput) :
  Before (contextOf defaultCfg DefaultFrontendPort r) = None <->
  args r = [] /\
  (ephemeral r = None \/ filename r = None) /\
  match searchAttributesKey r, searchAttributesType r with
  | None, None => True
  | Some ks, Some ts => length ks = length ts
  | _, _ => False
  end /\
  (logFormat r = None \/ logFormat r = Some "json" \/ logFormat r = Some "pretty").
Proof.
  destruct r as [a e f p lf ns ks ts].
  unfold Before, searchAttributesValid, contextOf; simpl.
  destruct a as [|x a]; simpl; [|accept_cases].
  destruct e as [e|], f as [f|]; simpl; try accept_cases.
  all: destruct ks as [ks|], ts as [ts|]; simpl; try accept_cases.
  all: try (destruct (Nat.eqb_spec (length ts) (length ks)) as [Hl|Hl]; simpl;
            [|accept_cases]).
  all: destruct lf as [lf|]; simpl; [|accept_cases].
  all: destruct (String.eqb_spec lf "json") as [->|E1]; simpl; [accept_cases|].
  all: destruct (String.eqb_spec lf "pretty") as [->|E2]; simpl; accept_cases.
Qed.

End Start.

(** ** The claims on the sample inputs *)

(** Scenario 2: both flags set, no positional argument. *)
Lemma C1_witness :
  exists msg, Before samplePrintTable (sampleContext scenario2) = Some (cli.Exit msg 1) /\
    contains msg ephemeralFlag = true /\ contains msg dbPathFlag = true.
Proof.
  destruct (C1_ephemeral_filename_conflict samplePrintTable sampleTypes None (fun _ => None)
              (fun _ => None) (sampleContext scenario2) eq_refl eq_refl)
    as (_ & _ & H).
  apply H. reflexivity.
Defined.

(** C1 as it was stated fails when a positional argument is present as
    well: both flags are set, and the failure reported is the one about
    arguments, whose message names neither flag. *)
Lemma C1_counterexample :
  cli.IsSet (sampleContext conflictWithArgument) ephemeralFlag = true /\
  cli.IsSet (sampleContext conflictWithArgument) dbPathFlag = true /\
  Before samplePrintTable (sampleContext conflictWithArgument)
  = Some (cli.Exit "ERROR: start command doesn't support arguments." 1) /\
  contains "ERROR: start command doesn't support arguments." ephemeralFlag = false /\
  contains "ERROR: start command doesn't support arguments." dbPathFlag = false.
Proof. repeat split; reflexivity. Qed.

Lemma sampleTypes_known (types : list string) :
  forallb (fun ty => bool_decide (is_Some (sampleTypes !! ty))) types = true ->
  forall ty, ty ∈ types -> is_Some (sampleTypes !! ty).
Proof.
  intros H ty Hin. rewrite forallb_forall in H.
  apply list_elem_of_In, H in Hin. by apply bool_decide_eq_true in Hin.
Defined.

(** A key listed twice: the later type wins. *)
Lemma C2_witness :
  exists sa : gmap string Z,
    parseSearchAttributes sampleTypes ["CustomID"; "Other"; "CustomID"]
      ["Keyword"; "Int"; "Text"] = Return sa /\
    forall (k : string) (v : Z),
      sa !! k = Some v <->
      exists (i : nat) (ty : string),
        ["CustomID"; "Other"; "CustomID"] !! i = Some k /\
        ["Keyword"; "Int"; "Text"] !! i = Some ty /\
        sampleTypes !! ty = Some v /\
        forall j : nat, (i < j)%nat ->
          ["CustomID"; "Other"; "CustomID"] !! j <> Some k.
Proof.
  apply (C2_parse_success sampleTypes); [reflexivity|].
  apply sampleTypes_known. reflexivity.
Defined.

(** An unknown token in second place, against two keys. *)
Lemma C3_witness :
  parseSearchAttributes sampleTypes ["A"; "B"] ["Keyword"; "NotAType"]
  = Fail (errorString
      "the type: NotAType is not a valid type for a search attribute") /\
  contains "the type: NotAType is not a valid type for a search attribute"
    "NotAType" = true.
Proof.
  apply (C3_parse_failure sampleTypes ["A"; "B"] ["Keyword"; "NotAType"]
           1%nat "NotAType"); [reflexivity|reflexivity| |simpl; lia].
  intros [|j] ty' Hj Hty; [|lia].
  injection Hty as <-. by eexists.
Defined.

(** C3 as it was stated fails when the unknown token stands beyond the end
    of the key list: it is never looked at, and the parser returns the map
    of the keys before it. *)
Lemma C3_counterexample :
  sampleTypes !! "NotAType" = None /\
  "NotAType" ∈ ["Keyword"; "NotAType"] /\
  parseSearchAttributes sampleTypes ["CustomID"] ["Keyword"; "NotAType"]
  = Return (<["CustomID" := 2]> ∅).
Proof.
  split; [reflexivity|]. split; [|reflexivity].
  rewrite !elem_of_cons. auto.
Qed.

(** Only the key list set: validation fails.  Nothing set: the
    search-attribute checks pass and no directive is produced. *)
Lemma C4_witness :
  (exists msg, Before samplePrintTable (sampleContext keyOnly) = Some (cli.Exit msg 1)) /\
  searchAttributesValid samplePrintTable (sampleContext noFlags) = None /\
  forall opts,
    result (composeOptions sampleTypes None (sampleContext noFlags)) = Return opts ->
    existsb isWithSearchAttributes opts = false.
Proof.
  split.
  - apply (C4_search_attribute_pairing samplePrintTable sampleTypes None (fun _ => None)
             (fun _ => None) (sampleContext keyOnly)).
    reflexivity.
  - destruct (C4_search_attribute_pairing samplePrintTable sampleTypes None (fun _ => None)
                (fun _ => None) (sampleContext noFlags)) as [_ H].
    destruct (H eq_refl eq_refl) as (H1 & _ & H2). by split.
Defined.

(** Scenario 5: the value xml, nothing else wrong. *)
Lemma C5_witness :
  Before samplePrintTable (sampleContext scenario5)
  = Some (cli.Exit ("bad value " +:+ quote samplePrintTable "xml" +:+ " passed for flag "
                      +:+ quote samplePrintTable logFormatFlag) 1) /\
  Before samplePrintTable (sampleContext prettyFormat) = None /\
  (exists opts,
     result (composeOptions sampleTypes None (sampleContext prettyFormat))
     = Return opts /\
     (existsb isWithLogger opts = true <->
      cli.String (sampleContext prettyFormat) logFormatFlag = "pretty")).
Proof.
  split; [|split].
  - destruct (C5_log_format samplePrintTable sampleTypes None (sampleContext scenario5))
      as (_ & H & _).
    destruct (H eq_refl eq_refl eq_refl) as [H1 _].
    apply H1; discriminate.
  - destruct (C5_log_format samplePrintTable sampleTypes None (sampleContext prettyFormat))
      as (_ & H & _).
    destruct (H eq_refl eq_refl eq_refl) as [_ H2].
    apply H2. by right.
  - destruct (C5_log_format samplePrintTable sampleTypes None
                (sampleContext prettyFormat)) as (_ & _ & _ & _ & _ & _ & H).
    apply H; [reflexivity| |reflexivity].
    intros Hk. discriminate Hk.
Defined.

(** C5 as it was stated fails when an earlier check fails: the value is
    xml, and the failure reported is the one about arguments, whose message
    cites neither the value nor the flag name. *)
Lemma C5_counterexample :
  cli.String (sampleContext badFormatWithArgument) logFormatFlag = "xml" /\
  Before samplePrintTable (sampleContext badFormatWithArgument)
  = Some (cli.Exit "ERROR: start command doesn't support arguments." 1) /\
  contains "ERROR: start command doesn't support arguments." "xml" = false /\
  contains "ERROR: start command doesn't support arguments." logFormatFlag = false.
Proof. repeat split; reflexivity. Qed.

(** Scenario 1: the options are composed, the four base directives first,
    then persistence disabled. *)
Lemma C6_witness :
  exists rest,
    result (composeOptions sampleTypes None (sampleContext scenario1))
    = Return ([ WithFrontendPort 7777;
                WithDatabaseFilePath (DatabaseFilePath sampleCfg);
                WithNamespaces [];
                WithUpstreamOptions InterruptOn_InterruptCh ]
              ++ [WithPersistenceDisabled] ++ rest)%list /\
    forallb (fun o => isWithSearchAttributes o || isWithLogger o) rest = true.
Proof.
  apply (proj1 (C6_base_options samplePrintTable sampleTypes None
                  (sampleContext scenario1))).
  - reflexivity.
  - intros H. discriminate H.
  - intros H. discriminate H.
Defined.

(** Scenario 4: two keys against one type. *)
Lemma C7_witness :
  exists msg, Before samplePrintTable (sampleContext scenario4) = Some (cli.Exit msg 1).
Proof.
  apply (C7_length_mismatch samplePrintTable sampleTypes None (fun _ => None) (fun _ => None)
           (sampleContext scenario4)); [reflexivity|reflexivity|].
  simpl. lia.
Defined.

(** Scenario 6 exits with status 1; a bare start whose server stops cleanly
    exits with status 0; a pretty format whose logger cannot be built exits
    with status 1 and the error behind the date and time. *)
Lemma C8_witness :
  status (main samplePrintTable sampleTypes None (fun _ => None) (fun _ => None)
            sampleTimestamp (sampleContext scenario6)) = 1 /\
  stderr (main samplePrintTable sampleTypes None (fun _ => None) (fun _ => None)
            sampleTimestamp (sampleContext noFlags))
  = ["All services are stopped."] /\
  (status (main samplePrintTable sampleTypes (Some "encoder misconfigured")
             (fun _ => None) (fun _ => None) sampleTimestamp
             (sampleContext prettyFormat)) = 1 /\
   stderr (main samplePrintTable sampleTypes (Some "encoder misconfigured")
             (fun _ => None) (fun _ => None) sampleTimestamp
             (sampleContext prettyFormat))
   = [sampleTimestamp +:+ "encoder misconfigured"]).
Proof.
  split; [|split].
  - destruct (C8_exit_status samplePrintTable sampleTypes None (fun _ => None)
                (fun _ => None) sampleTimestamp (sampleContext scenario6))
      as ((_ & _ & _ & _ & H & _) & _).
    by destruct (H _ eq_refl).
  - destruct (C8_exit_status samplePrintTable sampleTypes None (fun _ => None)
                (fun _ => None) sampleTimestamp (sampleContext noFlags))
      as ((_ & _ & _ & H & _) & _).
    apply H. reflexivity.
  - destruct (C8_exit_status samplePrintTable sampleTypes
                (Some "encoder misconfigured") (fun _ => None) (fun _ => None)
                sampleTimestamp (sampleContext prettyFormat)) as [_ H].
    destruct (H eq_refl) as [H1 _].
    + intros Hk. discriminate Hk.
    + apply H1; reflexivity.
Defined.

(** One key against two types. *)
Lemma C9_witness :
  panics (parseSearchAttributes sampleTypes ["CustomID"] ["Keyword"; "NotAType"])
  = false.
Proof.
  apply (C9_no_index_fault samplePrintTable sampleTypes None (fun _ => None) (fun _ => None)).
  simpl. lia.
Defined.

(** A positional argument and the value xml: the argument is reported. *)
Lemma C10_witness :
  Before samplePrintTable (sampleContext badFormatWithArgument)
  = Some (cli.Exit "ERROR: start command doesn't support arguments." 1).
Proof.
  apply (C10_earliest_check samplePrintTable (sampleContext badFormatWithArgument)).
  discriminate.
Defined.

(** ** The further properties on the sample inputs *)

(** A key listed twice among three: two names in the map. *)
Lemma parse_dom_witness :
  dom (<["CustomID" := 1%Z]> (<["Other" := 3%Z]> ∅) : gmap string Z)
  = list_to_set ["CustomID"; "Other"; "CustomID"] /\
  (size (<["CustomID" := 1%Z]> (<["Other" := 3%Z]> ∅) : gmap string Z) <= 3)%nat /\
  (NoDup ["CustomID"; "Other"; "CustomID"] ->
   size (<["CustomID" := 1%Z]> (<["Other" := 3%Z]> ∅) : gmap string Z) = 3%nat).
Proof.
  apply (parse_dom sampleTypes ["CustomID"; "Other"; "CustomID"]
           ["Keyword"; "Int"; "Text"]).
  reflexivity.
Defined.

(** One pair, then two more, the first of them on the same key. *)
Lemma parse_app_witness :
  parseSearchAttributes sampleTypes (["A"] ++ ["A"; "B"])
    (["Keyword"] ++ ["Int"; "Text"])
  = Return ((<["A" := 3]> (<["B" := 1]> ∅)) ∪ (<["A" := 2]> ∅)).
Proof.
  exact (parse_app sampleTypes ["A"] ["A"; "B"] ["Keyword"] ["Int"; "Text"]
           eq_refl).
Defined.

(** Two keys against a known and an unknown type. *)
Lemma unknown_type_exit_witness :
  main samplePrintTable sampleTypes None (fun _ => None) (fun _ => None)
    sampleTimestamp (sampleContext unknownType)
  = {| stderr :=
         [sampleTimestamp
            +:+ "the type: NotAType is not a valid type for a search attribute"];
       status := 1 |} /\
  trace (Run samplePrintTable sampleTypes None (fun _ => None) (fun _ => None)
           (sampleContext unknownType))
  = [CallParseSearchAttributes ["A"; "B"] ["Keyword"; "NotAType"]].
Proof.
  apply (unknown_type_exit samplePrintTable sampleTypes None (fun _ => None)
           (fun _ => None) sampleTimestamp (sampleContext unknownType)
           1%nat "NotAType");
    [reflexivity|reflexivity|reflexivity|reflexivity|].
  intros [|j] ty' Hj Hty; [|lia].
  injection Hty as <-. by eexists.
Defined.

(** Scenario 3: the directive carries the one parsed entry. *)
Lemma composed_directives_witness :
  WithSearchAttributes (<["CustomID" := 2]> ∅)
  ∈ [ WithFrontendPort samplePort;
      WithDatabaseFilePath (DatabaseFilePath sampleCfg);
      WithNamespaces [];
      WithUpstreamOptions InterruptOn_InterruptCh;
      WithSearchAttributes (<["CustomID" := 2]> ∅) ].
Proof.
  apply (composed_directives sampleTypes None (sampleContext scenario3) _ eq_refl).
  repeat split; reflexivity.
Defined.
